(** * ninja_items: the item API over a nested-set tree

    A shallow embedding of [itemsapi/save/api_fat.py]: the request handlers
    of the item router, the schema resolvers, and the part of the ORM they
    drive.  The database is an explicit value threaded through a small
    state-and-exception monad; [transaction.atomic()] restores the value it
    started from when its body raises. *)

From Stdlib Require Import ZArith String Ascii List Lia Bool.
From stdpp Require Import base option list gmap strings sorting.

Local Open Scope Z_scope.

(** ** Rows *)

(** An [Item] instance: the columns of the model that the handlers read or
    write.  [tree_id], [lft], [rght] and [level] are the nested-set
    coordinates kept by the tree mixin.  [name] is nullable on the Python
    side ([ItemUpdate.name] may be assigned to it before validation). *)
Record Item := mkItem {
  id : Z;
  name : option string;
  description : option string;
  qr_code : option string;
  parent_id : option Z;
  tree_id : Z;
  lft : Z;
  rght : Z;
  level : Z
}.

(** A [ComponentHistory] row: three nullable foreign keys and a timestamp. *)
Record HistoryRow := mkHistoryRow {
  h_id : Z;
  h_item : option Z;
  h_old_parent : option Z;
  h_new_parent : option Z;
  h_changed_at : Z
}.

(** An uploaded file, as far as [create_attachment] looks at it. *)
Record UploadedFile := mkUploadedFile {
  file_name : string;
  content_type : string;
  size : Z
}.

Record Attachment := mkAttachment {
  a_id : Z;
  a_item : Z;
  a_file : string;
  a_type : string
}.

Record DB := mkDB {
  items : list Item;
  history : list HistoryRow;
  attachments : list Attachment;
  clock : Z
}.

Global Instance Item_eq_dec : EqDecision Item.
Proof. solve_decision. Defined.

Global Instance HistoryRow_eq_dec : EqDecision HistoryRow.
Proof. solve_decision. Defined.

(** ** Exceptions and the handler monad *)

(** The body of an error response: a plain message, or the field-keyed
    dictionary of [ValidationErrorResponse]. *)
Inductive detail :=
| Message (s : string)
| FieldErrors (d : gmap string (list string)).

Inductive exn :=
| DoesNotExist
| InvalidMove
| ValidationError (d : gmap string (list string))
| HttpError (status : Z) (d : detail).

Inductive result (A : Type) :=
| Ok (a : A)
| Raise (e : exn).
Arguments Ok {A} a.
Arguments Raise {A} e.

Definition M (A : Type) : Type := DB → result A * DB.

Global Instance M_ret : MRet M := λ A a db, (Ok a, db).

Global Instance M_bind : MBind M := λ A B f m db,
  match m db with
  | (Ok a, db') => f a db'
  | (Raise e, db') => (Raise e, db')
  end.

Definition raise {A} (e : exn) : M A := λ db, (Raise e, db).

Definition get_db : M DB := λ db, (Ok db, db).

Definition put_db (db' : DB) : M unit := λ _, (Ok tt, db').

(** [with transaction.atomic(): body]: commit when the body returns, put the
    database back when it raises (the exception keeps propagating). *)
Definition atomic {A} (body : M A) : M A := λ db,
  match body db with
  | (Ok a, db') => (Ok a, db')
  | (Raise e, _) => (Raise e, db)
  end.

(** [try: body / except ...: handler]; [handler e = None] when no clause
    matches [e]. *)
Definition try_except {A} (body : M A) (handler : exn → option (M A)) : M A :=
  λ db,
  match body db with
  | (Ok a, db') => (Ok a, db')
  | (Raise e, db') =>
      match handler e with
      | Some h => h db'
      | None => (Raise e, db')
      end
  end.

(** ** The ORM manager *)

Definition lookup_item (tbl : list Item) (i : Z) : option Item :=
  List.find (λ r, id r =? i) tbl.

(** [Item.objects.get(id=i)] *)
Definition objects_get (i : Z) : M Item := λ db,
  match lookup_item (items db) i with
  | Some r => (Ok r, db)
  | None => (Raise DoesNotExist, db)
  end.

(** A nullable foreign key read through its descriptor ([item.parent]). *)
Definition related (fk : option Z) : M (option Item) :=
  match fk with
  | None => mret None
  | Some i => r ← objects_get i; mret (Some r)
  end.

(** Auto-incremented primary keys. *)
Definition next_id (ids : list Z) : Z := 1 + foldr Z.max 0 ids.

(** ** Tree queries *)

(** Modelled from the spec: the containment predicate of the query engine,
    §4.3 [is_ancestor_of(A, B)]: same forest and
    [A.left_bound < B.left_bound < B.right_bound < A.right_bound].  The
    method belongs to the tree mixin of the model, which is not part of the
    handler file. *)
Definition is_ancestor_of (a b : Item) : bool :=
  (tree_id a =? tree_id b) && (lft a <? lft b) && (lft b <? rght b) && (rght b <? rght a).

(** [order_by('lft')] *)
Definition lft_le (a b : Item) : Prop := lft a ≤ lft b.

Global Instance lft_le_dec : RelDecision lft_le.
Proof. intros a b. unfold lft_le. apply _. Defined.

Global Instance lft_le_total : Total lft_le.
Proof. intros a b. unfold lft_le. lia. Qed.

Global Instance lft_le_trans : Transitive lft_le.
Proof. intros a b c. unfold lft_le. lia. Qed.

Definition order_by_lft : list Item → list Item := merge_sort lft_le.

(** Modelled from the spec: §4.3 [descendants(N, include_self)], the rows of
    N's forest whose [left_bound] lies in
    [[N.left_bound (+1 if excluding self), N.right_bound]], as the ordered
    sequence of §6, in ascending [left_bound]. *)
Definition get_descendants (tbl : list Item) (n : Item) (include_self : bool) : list Item :=
  let lo := if include_self then lft n else lft n + 1 in
  order_by_lft
    (filter (λ x, tree_id x = tree_id n ∧ lo ≤ lft x ∧ lft x ≤ rght n) tbl).

(** Modelled from the spec: §4.3 [ancestors(N, include_self)], same forest,
    [left_bound <= N.left_bound] and [right_bound >= N.right_bound] (minus N
    itself if excluded), ordered by [left_bound] ascending. *)
Definition get_ancestors (tbl : list Item) (n : Item) (include_self : bool) : list Item :=
  order_by_lft
    (filter (λ x, tree_id x = tree_id n ∧ lft x ≤ lft n ∧ rght n ≤ rght x
                  ∧ (include_self = true ∨ id x ≠ id n)) tbl).

(** Modelled from the spec: §3, the children of a node are the nodes whose
    parent reference names it; [get_children()] belongs to the tree mixin,
    like the queries above. *)
Definition get_children (tbl : list Item) (n : Item) : list Item :=
  order_by_lft (filter (λ x, parent_id x = Some (id n)) tbl).

(** ** The tree engine

    [move_to()] and the tree part of [save()] come with the tree mixin of
    the model; the handler file only calls them.  The coordinate rewrites
    below follow the description of the engine in the specification. *)

Definition with_coords (r : Item) (t l g v : Z) : Item :=
  mkItem (id r) (name r) (description r) (qr_code r) (parent_id r) t l g v.

Definition with_parent (r : Item) (p : option Z) : Item :=
  mkItem (id r) (name r) (description r) (qr_code r) p
         (tree_id r) (lft r) (rght r) (level r).

Definition with_attrs (r : Item) (n d : option string) : Item :=
  mkItem (id r) n d (qr_code r) (parent_id r)
         (tree_id r) (lft r) (rght r) (level r).

(** Modelled from the spec: §4.2 Insert, the shift that makes room at
    position [pos] of a forest: every bound of that forest that is
    [>= pos] grows by [width]. *)
Definition open_gap (tree pos width : Z) (r : Item) : Item :=
  if tree_id r =? tree then
    with_coords r (tree_id r)
      (if pos <=? lft r then lft r + width else lft r)
      (if pos <=? rght r then rght r + width else rght r)
      (level r)
  else r.

(** Modelled from the spec: §4.2 Delete, the compaction after a subtree
    left: every bound of the forest that lies beyond [pos] shrinks by
    [width]. *)
Definition close_gap (tree pos width : Z) (r : Item) : Item :=
  if tree_id r =? tree then
    with_coords r (tree_id r)
      (if pos <? lft r then lft r - width else lft r)
      (if pos <? rght r then rght r - width else rght r)
      (level r)
  else r.

(** Modelled from the spec: §4.2 Delete and Move, the rows of [n]'s subtree
    ([n] included) are those of its forest whose left bound lies within
    [n]'s interval. *)
Definition in_subtree (n x : Item) : bool :=
  (tree_id x =? tree_id n) && (lft n <=? lft x) && (lft x <=? rght n).

(** Modelled from the spec: §4.2 Move steps 3 and 4, a moved row keeps its
    relative position: both bounds shift by one offset, the depth by the
    depth delta, and the forest becomes the destination's. *)
Definition relocate (tree offset dlevel : Z) (r : Item) : Item :=
  with_coords r tree (lft r + offset) (rght r + offset) (level r + dlevel).

(** Modelled from the spec: §4.2 Insert, a new root gets a fresh forest id. *)
Definition fresh_tree_id (tbl : list Item) : Z := next_id (map tree_id tbl).

(** Modelled from the spec: §4.2 Insert (root, or as the last child of the
    parent named by [parent_id]).  [None] when the parent row is missing. *)
Definition insert_node (tbl : list Item) (new : Item) : option (list Item) :=
  match parent_id new with
  | None => Some (tbl ++ [with_coords new (fresh_tree_id tbl) 1 2 0])
  | Some p =>
      match lookup_item tbl p with
      | Some P =>
          Some (map (open_gap (tree_id P) (rght P) 2) tbl
                  ++ [with_coords new (tree_id P) (rght P) (rght P + 1) (level P + 1)])
      | None => None
      end
  end.

(** Modelled from the spec: §4.2 Move, steps 1 to 4: the cycle check, the
    detach (compaction of the source forest), the re-insertion of the
    subtree at the end of the destination's children by one offset, and the
    rewrite of depth and forest.  [None] when the cycle check rejects. *)
Definition move_node (tbl : list Item) (n : Item) (target : option Item)
  : option (list Item) :=
  let width := rght n - lft n + 1 in
  let detach := close_gap (tree_id n) (rght n) width in
  match target with
  | Some p =>
      if (id p =? id n) || in_subtree n p then None
      else
        let p' := detach p in
        let pos := rght p' in
        Some (map (λ x,
                if in_subtree n x then
                  let x' := relocate (tree_id p') (pos - lft n) (level p' + 1 - level n) x in
                  if id x =? id n then with_parent x' (Some (id p)) else x'
                else open_gap (tree_id p') pos width (detach x)) tbl)
  | None =>
      let t := fresh_tree_id tbl in
      Some (map (λ x,
              if in_subtree n x then
                let x' := relocate t (1 - lft n) (- level n) x in
                if id x =? id n then with_parent x' None else x'
              else detach x) tbl)
  end.

Definition set_items (db : DB) (tbl : list Item) : DB :=
  mkDB tbl (history db) (attachments db) (clock db).

(** [item.move_to(target)] *)
Definition move_to (item : Item) (target : option Item) : M unit :=
  db ← get_db;
  match move_node (items db) item target with
  | Some tbl => put_db (set_items db tbl)
  | None => raise InvalidMove
  end.

(** [item.refresh_from_db()] *)
Definition refresh_from_db (item : Item) : M Item := objects_get (id item).

(** [item.save()] for an instance that has no row yet. *)
Definition save_new (item : Item) : M Item :=
  db ← get_db;
  let new := mkItem (next_id (map id (items db))) (name item) (description item)
                    (qr_code item) (parent_id item) 0 0 0 0 in
  match insert_node (items db) new with
  | Some tbl => put_db (set_items db tbl);; objects_get (id new)
  | None => raise DoesNotExist
  end.

(** [item.save()] for a loaded instance: the tree mixin moves the row when
    its parent key changed, then the plain columns are written. *)
Definition save (item : Item) : M Item :=
  old ← objects_get (id item);
  (if decide (parent_id old = parent_id item) then mret tt
   else target ← related (parent_id item); move_to old target);;
  db ← get_db;
  put_db (set_items db
            (map (λ r, if id r =? id item
                       then with_attrs r (name item) (description item) else r)
                 (items db)));;
  objects_get (id item).

(** [ComponentHistory.objects.create(item=, old_parent=, new_parent=)] *)
Definition history_create (item : Item) (old_parent new_parent : option Item)
  : M HistoryRow := λ db,
  let h := mkHistoryRow (next_id (map h_id (history db))) (Some (id item))
                        (id <$> old_parent) (id <$> new_parent) (clock db) in
  (Ok h, mkDB (items db) (history db ++ [h]) (attachments db) (clock db + 1)).

(** ** Request schemas *)

Record ItemCreate := mkItemCreate {
  c_name : string;
  c_description : option string;
  c_parent_id : option Z
}.

(** [ItemUpdate]: every field is optional; the outer [option] tells whether
    the request set the field at all (what [dict(exclude_unset=True)]
    keeps), the inner one is the value, which may be null. *)
Record ItemUpdate := mkItemUpdate {
  u_name : option (option string);
  u_description : option (option string);
  u_parent_id : option (option Z)
}.

(** Reading [data.parent_id]: the default [None] when unset. *)
Definition data_parent_id (data : ItemUpdate) : option Z := mjoin (u_parent_id data).

(** ** Handlers: reparenting *)

Definition on_does_not_exist {A} (h : M A) (e : exn) : option (M A) :=
  match e with DoesNotExist => Some h | _ => None end.

Definition on_validation_error {A} (e : exn) : option (M A) :=
  match e with
  | ValidationError d => Some (raise (HttpError 400 (FieldErrors d)))
  | _ => None
  end.

Definition validate_parent_relationship (item : Item) (parent_id : Z) : M Item :=
  parent ← try_except (objects_get parent_id)
             (on_does_not_exist (raise (HttpError 404 (Message "Parent item not found"))));
  if (id parent =? id item) || is_ancestor_of item parent
  then raise (HttpError 400 (Message "Circular dependency detected"))
  else mret parent.

Definition change_parent (item_id : Z) (data : ItemUpdate) : M Item :=
  try_except
    (atomic (
       item ← objects_get item_id;
       old_parent ← related (parent_id item);
       new_parent ← match data_parent_id data with
                     | Some pid => p ← validate_parent_relationship item pid; mret (Some p)
                     | None => mret None
                     end;
       move_to item new_parent;;
       item ← refresh_from_db item;
       history_create item old_parent new_parent;;
       mret item))
    (on_does_not_exist (raise (HttpError 404 (Message "Item not found")))).

(** ** Model validation *)

(** The field constraints of a model.  They are declared with the model
    classes, outside the handler file, so they are an interface here:
    the constrained fields and, for a field and an instance, every problem
    message of that field. *)
Class Validators (A : Type) := {
  fields : list string;
  problems : string → A → list string
}.

(** Modelled from the spec: §7 ValidationError, a field-keyed list of
    messages that aggregates all field problems in one response rather than
    failing on the first.  This is the dictionary [full_clean()] raises. *)
(** One field's entry of the dictionary: present when the field has
    problems, with all of them. *)
Definition add_problems `{Validators A} (obj : A) (f : string)
    (d : gmap string (list string)) : gmap string (list string) :=
  match problems f obj with
  | [] => d
  | msgs => <[f := msgs]> d
  end.

Definition error_dict `{Validators A} (obj : A) : gmap string (list string) :=
  foldr (add_problems obj) ∅ fields.

(** [obj.full_clean()] *)
Definition full_clean `{Validators A} (obj : A) : M unit :=
  let d := error_dict obj in
  if decide (d = ∅) then mret tt else raise (ValidationError d).

(** ** Handlers: create and update *)

Definition truthy_int (v : option Z) : bool :=
  match v with Some n => negb (n =? 0) | None => false end.

(** The instance built from the fields of [data]: it has no row yet, its
    key and its coordinates are assigned when it is saved. *)
Definition new_item (data : ItemCreate) : Item :=
  mkItem 0 (Some (c_name data)) (c_description data) None (c_parent_id data) 0 0 0 0.

Definition create_item `{Validators Item} (data : ItemCreate) : M (Z * Item) :=
  try_except
    (atomic (
       (if truthy_int (c_parent_id data) then
          try_except (objects_get (default 0 (c_parent_id data));; mret tt)
            (on_does_not_exist (raise (HttpError 404 (Message "Parent item not found"))))
        else mret tt);;
       let item := new_item data in
       full_clean item;;
       item ← save_new item;
       mret (201, item)))
    on_validation_error.

(** [setattr(item, attr, value)] for the three attributes of [ItemUpdate]. *)
Definition set_name (v : option string) (r : Item) : Item :=
  with_attrs r v (description r).

Definition set_description (v : option string) (r : Item) : Item :=
  with_attrs r (name r) v.

Definition set_parent_id (v : option Z) (r : Item) : Item := with_parent r v.

(** [for attr, value in data.dict(exclude_unset=True).items():
       setattr(item, attr, value)] *)
Definition assign_set_fields (data : ItemUpdate) (item : Item) : Item :=
  let item := from_option (λ v, set_name v item) item (u_name data) in
  let item := from_option (λ v, set_description v item) item (u_description data) in
  from_option (λ v, set_parent_id v item) item (u_parent_id data).

(** The same loop guarded by [if value is not None]. *)
Definition assign_non_null_fields (data : ItemUpdate) (item : Item) : Item :=
  let item := from_option (λ v, set_name (Some v) item) item (mjoin (u_name data)) in
  let item := from_option (λ v, set_description (Some v) item) item
                          (mjoin (u_description data)) in
  from_option (λ v, set_parent_id (Some v) item) item (mjoin (u_parent_id data)).

Definition on_missing_or_invalid {A} (e : exn) : option (M A) :=
  match e with
  | DoesNotExist => Some (raise (HttpError 404 (Message "Item not found")))
  | ValidationError d => Some (raise (HttpError 400 (FieldErrors d)))
  | _ => None
  end.

Definition update_with `{Validators Item} (assign : ItemUpdate → Item → Item)
    (item_id : Z) (data : ItemUpdate) : M Item :=
  try_except
    (atomic (
       item ← objects_get item_id;
       (match data_parent_id data with
        | Some pid => validate_parent_relationship item pid;; mret tt
        | None => mret tt
        end);;
       let item := assign data item in
       full_clean item;;
       save item))
    on_missing_or_invalid.

Definition update_item `{Validators Item} : Z → ItemUpdate → M Item :=
  update_with assign_set_fields.

Definition partial_update_item `{Validators Item} : Z → ItemUpdate → M Item :=
  update_with assign_non_null_fields.

(** ** Handlers: queries *)

Definition get_item_tree (item_id : Z) : M (list Item) :=
  try_except
    (item ← objects_get item_id;
     db ← get_db;
     mret (get_descendants (items db) item true))
    (on_does_not_exist (raise (HttpError 404 (Message "Item not found")))).

Definition get_breadcrumb (item_id : Z) : M (list Item) :=
  try_except
    (item ← objects_get item_id;
     db ← get_db;
     mret (get_ancestors (items db) item true))
    (on_does_not_exist (raise (HttpError 404 (Message "Item not found")))).

(** ** Search *)

(** A [Q] object, and a queryset as the filter it will run with. *)
Definition Q : Type := Item → bool.

Definition q_or (a b : Q) : Q := λ r, a r || b r.

(** [Item.objects.none()] *)
Definition objects_none : Q := λ _, false.

(** Evaluating a queryset against the table. *)
Definition fetch (tbl : list Item) (q : Q) : list Item := List.filter q tbl.

Definition lower (c : ascii) : ascii :=
  let n := nat_of_ascii c in
  if (65 <=? n)%nat && (n <=? 90)%nat then ascii_of_nat (n + 32) else c.

Fixpoint lowercase (s : string) : string :=
  match s with
  | EmptyString => EmptyString
  | String c t => String (lower c) (lowercase t)
  end.

Fixpoint contains (needle hay : string) : bool :=
  String.prefix needle hay ||
  match hay with
  | EmptyString => false
  | String _ t => contains needle t
  end.

(** The [__icontains] lookup on a nullable text column. *)
Definition icontains (column : option string) (needle : string) : bool :=
  match column with
  | Some s => contains (lowercase needle) (lowercase s)
  | None => false
  end.

(** Truth value of an optional string parameter: [None] and the empty
    string are false. *)
Definition truthy (v : option string) : bool :=
  match v with
  | Some s => negb (s =? "")%string
  | None => false
  end.

Definition q_qr_code (v : string) : Q := λ r, bool_decide (qr_code r = Some v).
Definition q_name_icontains (v : string) : Q := λ r, icontains (name r) v.
Definition q_description_icontains (v : string) : Q := λ r, icontains (description r) v.
Definition q_pk (i : Z) : Q := λ r, id r =? i.

(** [models.Q(tree_id=item.tree_id, lft__gt=item.lft, rght__lt=item.rght)] *)
Definition descendant_filter (item : Item) : Q := λ r,
  (tree_id r =? tree_id item) && (lft item <? lft r) && (rght r <? rght item).

(** [reduce(operator.or_, filters)] on a non-empty list. *)
Definition reduce_or (filters : list Q) : Q :=
  match filters with
  | [] => objects_none
  | q :: qs => fold_left q_or qs q
  end.

Definition search_filters (qr_code name description : option string) : list Q :=
  (if truthy qr_code then [q_qr_code (default "" qr_code)] else [])
  ++ (if truthy name then [q_name_icontains (default "" name)] else [])
  ++ (if truthy description then [q_description_icontains (default "" description)] else []).

Definition search_items (qr_code name description : option string) : M (list Item) :=
  db ← get_db;
  let filters := search_filters qr_code name description in
  match filters with
  | _ :: _ =>
      let direct_matches := fetch (items db) (reduce_or filters) in
      let all_items :=
        fold_left (λ all_items item,
                     q_or all_items (q_or (q_pk (id item)) (descendant_filter item)))
                  direct_matches objects_none in
      mret (remove_dups (fetch (items db) all_items))
  | [] => mret (fetch (items db) objects_none)
  end.

(** A row that some supplied predicate matches directly. *)
Definition direct_hit (qr_code name description : option string) (r : Item) : bool :=
  (truthy qr_code && q_qr_code (default "" qr_code) r)
  || (truthy name && q_name_icontains (default "" name) r)
  || (truthy description && q_description_icontains (default "" description) r).

(** ** Listing and serialization *)

(** A Python instance of [Item]: the loaded row and the attributes that
    were set on the object afterwards. *)
Record ItemObj := mkItemObj {
  row : Item;
  attrs : gmap string bool
}.

Definition load (r : Item) : ItemObj := mkItemObj r ∅.

Definition setattr (o : ItemObj) (k : string) (v : bool) : ItemObj :=
  mkItemObj (row o) (<[k := v]> (attrs o)).

Definition getattr (o : ItemObj) (k : string) (dflt : bool) : bool :=
  default dflt (attrs o !! k).

(** Modelled from the spec: §3 invariant 5, a root has no parent
    reference; this is [Item.objects.root_nodes()] of the tree manager. *)
Definition root_nodes (tbl : list Item) : list Item :=
  filter (λ r, parent_id r = None) tbl.

Definition exn_str (e : exn) : string :=
  match e with
  | DoesNotExist => "Item matching query does not exist."
  | InvalidMove => "A node may not be made a child of itself or of its descendants."
  | ValidationError _ => "ValidationError"
  | HttpError _ (Message s) => s
  | HttpError _ (FieldErrors _) => "HttpError"
  end.

Definition list_items (hierarchical : bool) : M (list ItemObj) :=
  try_except
    (db ← get_db;
     if hierarchical then mret (load <$> root_nodes (items db))
     else
       let items := load <$> items db in
       mret ((λ item, setattr item "is_flat_view" true) <$> items))
    (λ e, Some (raise (HttpError 500 (Message (exn_str e))))).

(** The [ItemOut] schema, without the timestamp and the child records. *)
#[local] Unset Elimination Schemes.
Inductive ItemOut :=
| mkItemOut (o_id : Z) (o_name : option string) (o_description : option string)
            (o_parent_id : option Z) (o_level o_tree_id : Z)
            (o_children : list ItemOut).

#[local] Set Elimination Schemes.

Definition children (o : ItemOut) : list ItemOut :=
  match o with mkItemOut _ _ _ _ _ _ c => c end.

Definition out_id (o : ItemOut) : Z :=
  match o with mkItemOut i _ _ _ _ _ _ => i end.

(** [ItemOut.resolve_children]; an [Item] instance always has
    [get_children]. *)
Definition resolve_children (tbl : list Item) (obj : ItemObj) : list ItemObj :=
  if getattr obj "_is_flat_view" false then []
  else load <$> get_children tbl (row obj).

(** Building the response of one object; the schema recurses into the
    resolved children, [fuel] bounds the depth. *)
Fixpoint serialize (fuel : nat) (tbl : list Item) (obj : ItemObj) : ItemOut :=
  let r := row obj in
  mkItemOut (id r) (name r) (description r) (parent_id r) (level r) (tree_id r)
    (match fuel with
     | O => []
     | S fuel' => serialize fuel' tbl <$> resolve_children tbl obj
     end).

Definition respond (tbl : list Item) (objs : list ItemObj) : list ItemOut :=
  serialize (length tbl) tbl <$> objs.

(** ** History schema *)

(** A [ComponentHistory] instance with its three relations read. *)
Record ComponentHistory := mkComponentHistory {
  ch_id : Z;
  ch_item : option Item;
  ch_old_parent : option Item;
  ch_new_parent : option Item;
  ch_changed_at : Z
}.

Module ComponentHistorySchema.

Definition resolve_item (obj : ComponentHistory) : option Z :=
  match ch_item obj with Some i => Some (id i) | None => None end.

Definition resolve_old_parent (obj : ComponentHistory) : option Z :=
  match ch_old_parent obj with Some p => Some (id p) | None => None end.

Definition resolve_new_parent (obj : ComponentHistory) : option Z :=
  match ch_new_parent obj with Some p => Some (id p) | None => None end.

Definition resolve_item_name (obj : ComponentHistory) : option string :=
  match ch_item obj with Some i => name i | None => Some "Deleted Item"%string end.

Definition resolve_old_parent_name (obj : ComponentHistory) : option string :=
  match ch_old_parent obj with Some p => name p | None => Some "Storage"%string end.

Definition resolve_new_parent_name (obj : ComponentHistory) : option string :=
  match ch_new_parent obj with Some p => name p | None => Some "Storage"%string end.

Record t := mk {
  id_ : Z;
  item : option Z;
  old_parent : option Z;
  new_parent : option Z;
  changed_at : Z;
  item_name : option string;
  old_parent_name : option string;
  new_parent_name : option string
}.

Definition from_orm (obj : ComponentHistory) : t :=
  mk (ch_id obj) (resolve_item obj) (resolve_old_parent obj) (resolve_new_parent obj)
     (ch_changed_at obj) (resolve_item_name obj) (resolve_old_parent_name obj)
     (resolve_new_parent_name obj).

End ComponentHistorySchema.

(** Reading a history row with its relations. *)
Definition read_history (h : HistoryRow) : M ComponentHistory :=
  i ← related (h_item h);
  o ← related (h_old_parent h);
  n ← related (h_new_parent h);
  mret (mkComponentHistory (h_id h) i o n (h_changed_at h)).

Fixpoint for_each {A B} (f : A → M B) (l : list A) : M (list B) :=
  match l with
  | [] => mret []
  | x :: l' => y ← f x; ys ← for_each f l'; mret (y :: ys)
  end.

Definition newest_first (a b : HistoryRow) : Prop := h_changed_at b ≤ h_changed_at a.

Global Instance newest_first_dec : RelDecision newest_first.
Proof. intros a b. unfold newest_first. apply _. Defined.

Definition get_component_history : M (list ComponentHistorySchema.t) :=
  db ← get_db;
  objs ← for_each read_history (merge_sort newest_first (history db));
  mret (ComponentHistorySchema.from_orm <$> objs).

(** ** Attachments *)

(** [s.startswith((p1, p2, ...))] *)
Definition startswith (s : string) (prefixes : list string) : bool :=
  existsb (λ p, String.prefix p s) prefixes.

Definition save_attachment (a : Attachment) : M Attachment := λ db,
  let a' := mkAttachment (next_id (map a_id (attachments db)))
                         (a_item a) (a_file a) (a_type a) in
  (Ok a', mkDB (items db) (history db) (attachments db ++ [a']) (clock db)).

Definition create_attachment `{Validators Attachment}
    (item_id : Z) (file : UploadedFile) : M (Z * Attachment) :=
  try_except
    (atomic (
       item ← objects_get item_id;
       (if negb (startswith (content_type file) ["image/"; "application/"; "text/"])
        then raise (ValidationError {["file" := ["Unsupported file type"]]})
        else mret tt);;
       (if size file >? 10 * 1024 * 1024
        then raise (ValidationError {["file" := ["File size exceeds 10MB limit"]]})
        else mret tt);;
       let attachment := mkAttachment 0 (id item) (file_name file) (content_type file) in
       full_clean attachment;;
       attachment ← save_attachment attachment;
       mret (201, attachment)))
    on_missing_or_invalid.

(** ** The nested-set invariants *)

(** [a]'s interval strictly contains [b]'s, in the same forest. *)
Definition encloses (a b : Item) : Prop :=
  tree_id a = tree_id b ∧ lft a < lft b ∧ rght b < rght a.

(** Primary keys are unique. *)
Definition keys_ok (tbl : list Item) : Prop := NoDup (id <$> tbl).

(** Invariant 1: [left_bound < right_bound]. *)
Definition bounds_ok (tbl : list Item) : Prop :=
  Forall (λ r, lft r < rght r) tbl.

(** Invariant 2: two rows of a forest have disjoint intervals, or one
    strictly contains the other. *)
Definition laminar (tbl : list Item) : Prop :=
  Forall (λ a, Forall (λ b,
    tree_id a = tree_id b →
    a = b ∨ rght a < lft b ∨ rght b < lft a ∨ encloses a b ∨ encloses b a) tbl) tbl.

(** Invariants 3 to 5: the parent of a row is the row of the innermost
    interval around it, one level up; a row without a parent is at depth 0
    and no interval is around it. *)
Definition parents_ok (tbl : list Item) : Prop :=
  Forall (λ c,
    match parent_id c with
    | Some p =>
        Exists (λ P, id P = p ∧ encloses P c ∧ level c = level P + 1
                     ∧ Forall (λ x, ¬ (encloses P x ∧ encloses x c)) tbl) tbl
    | None => level c = 0 ∧ Forall (λ x, ¬ encloses x c) tbl
    end) tbl.

Definition tree_ok (tbl : list Item) : Prop :=
  keys_ok tbl ∧ bounds_ok tbl ∧ laminar tbl ∧ parents_ok tbl.

Global Instance encloses_dec : RelDecision encloses.
Proof. intros a b. unfold encloses. apply _. Defined.

Global Instance tree_ok_dec tbl : Decision (tree_ok tbl).
Proof.
  unfold tree_ok, keys_ok, bounds_ok, laminar, parents_ok.
  repeat apply and_dec; try apply _.
  apply Forall_dec. intros c. destruct (parent_id c); apply _.
Defined.

(** Descendants by parent links: [descendant_of tbl n x] when [x] reaches
    [n] by following [parent_id] one or more times. *)
Inductive descendant_of (tbl : list Item) (n : Item) : Item → Prop :=
| descendant_child x :
    x ∈ tbl → parent_id x = Some (id n) → descendant_of tbl n x
| descendant_below x y :
    descendant_of tbl n y → x ∈ tbl → y ∈ tbl → parent_id x = Some (id y) →
    descendant_of tbl n x.

(** Each row of the list is the parent of the next one. *)
Fixpoint parent_linked (l : list Item) : Prop :=
  match l with
  | a :: (b :: _) as t => parent_id b = Some (id a) ∧ parent_linked t
  | _ => True
  end.

(** ** The scenario of the specification *)

Definition warehouse : Item :=
  mkItem 1 (Some "Warehouse"%string) None None None 1 1 6 0.

Definition shelf_a : Item :=
  mkItem 2 (Some "Shelf-A"%string) None None (Some 1) 1 2 5 1.

Definition bin_1 : Item :=
  mkItem 3 (Some "Bin-1"%string) None None (Some 2) 1 3 4 2.

Definition scenario : DB := mkDB [warehouse; shelf_a; bin_1] [] [] 0.

(** The empty database. *)
Definition empty_db : DB := mkDB [] [] [] 0.

(** A model without field constraints, and one whose [name] must be
    neither null nor blank and at most 100 characters long. *)
Definition unconstrained {A} : Validators A :=
  {| fields := []; problems := λ _ _, [] |}.

Definition name_problems (r : Item) : list string :=
  match name r with
  | None => ["This field cannot be null."%string]
  | Some s =>
      (if (s =? "")%string then ["This field cannot be blank."%string] else [])
      ++ (if (100 <? Z.of_nat (String.length s))
          then ["Ensure this value has at most 100 characters."%string] else [])
  end.

Definition named_items : Validators Item :=
  {| fields := ["name"%string];
     problems := λ f r, if (f =? "name")%string then name_problems r else [] |}.

(** The three creations of the scenario, as requests. *)
Definition build_scenario : M unit :=
  create_item (H := unconstrained) (mkItemCreate "Warehouse" None None);;
  create_item (H := unconstrained) (mkItemCreate "Shelf-A" None (Some 1));;
  create_item (H := unconstrained) (mkItemCreate "Bin-1" None (Some 2));;
  mret tt.

(** ** Properties of handlers *)

(** An [except] clause that only raises another exception. *)
Definition reraises {A} (handler : exn → option (M A)) : Prop :=
  ∀ e h, handler e = Some h → ∃ e', h = raise e'.

(** A computation that leaves the history log as it found it. *)
Definition keeps_history {A} (m : M A) : Prop :=
  ∀ db, history (m db).2 = history db.

(** ** Handlers: reading one item, deleting an attachment *)

(** [Item.objects.filter(id=item_id)....first()], 404 when there is none *)
Definition get_item (item_id : Z) : M Item :=
  db ← get_db;
  match head (fetch (items db) (q_pk item_id)) with
  | Some item => mret item
  | None => raise (HttpError 404 (Message "Item not found"))
  end.

(** [Attachment.objects.get(item_id=item_id, id=attachment_id)];
    [DoesNotExist] is the exception of the model that is queried. *)
Definition attachments_get (item_id attachment_id : Z) : M Attachment := λ db,
  match List.find (λ a, (a_item a =? item_id) && (a_id a =? attachment_id))
                  (attachments db) with
  | Some a => (Ok a, db)
  | None => (Raise DoesNotExist, db)
  end.

(** [attachment.delete()]: the row with that key goes. *)
Definition attachment_delete (a : Attachment) : M unit := λ db,
  (Ok tt, mkDB (items db) (history db)
               (List.filter (λ x, negb (a_id x =? a_id a)) (attachments db))
               (clock db)).

Definition delete_attachment (item_id attachment_id : Z) : M (Z * unit) :=
  try_except
    (attachment ← attachments_get item_id attachment_id;
     attachment_delete attachment;;
     mret (204, tt))
    (on_does_not_exist (raise (HttpError 404 (Message "Attachment not found")))).

(** [ItemOut.resolve_attachments]: [obj.attachments.all()], the attachments
    whose item is [obj]. *)
Definition resolve_attachments (db : DB) (obj : ItemObj) : list Attachment :=
  List.filter (λ a, a_item a =? id (row obj)) (attachments db).

(** ** Notes and emails

    The two other kinds of child records live in tables of their own; the
    handlers below run on the database extended with them. *)

Record Note := mkNote {
  n_id : Z;
  n_item : Z;
  n_content : string;
  n_author : string
}.

Record Email := mkEmail {
  e_id : Z;
  e_item : Z;
  e_subject : string;
  e_content : string
}.

(** [NoteCreate]: [author] defaults to "System" when the request omits it. *)
Record NoteCreate := mkNoteCreate {
  nc_content : string;
  nc_author : option string
}.

Record EmailCreate := mkEmailCreate {
  ec_subject : string;
  ec_content : string
}.

Record Site := mkSite {
  site_db : DB;
  notes : list Note;
  emails : list Email
}.

Definition MS (A : Type) : Type := Site → result A * Site.

Global Instance MS_ret : MRet MS := λ A a s, (Ok a, s).

Global Instance MS_bind : MBind MS := λ A B f m s,
  match m s with
  | (Ok a, s') => f a s'
  | (Raise e, s') => (Raise e, s')
  end.

Definition raise_s {A} (e : exn) : MS A := λ s, (Raise e, s).

(** A computation on the item tables, run inside the extended database. *)
Definition lift {A} (m : M A) : MS A := λ s,
  match m (site_db s) with
  | (r, db') => (r, mkSite db' (notes s) (emails s))
  end.

Definition atomic_s {A} (body : MS A) : MS A := λ s,
  match body s with
  | (Ok a, s') => (Ok a, s')
  | (Raise e, _) => (Raise e, s)
  end.

Definition try_except_s {A} (body : MS A) (handler : exn → option (MS A)) : MS A :=
  λ s,
  match body s with
  | (Ok a, s') => (Ok a, s')
  | (Raise e, s') =>
      match handler e with
      | Some h => h s'
      | None => (Raise e, s')
      end
  end.

Definition on_does_not_exist_s {A} (h : MS A) (e : exn) : option (MS A) :=
  match e with DoesNotExist => Some h | _ => None end.

Definition on_missing_or_invalid_s {A} (e : exn) : option (MS A) :=
  match e with
  | DoesNotExist => Some (raise_s (HttpError 404 (Message "Item not found")))
  | ValidationError d => Some (raise_s (HttpError 400 (FieldErrors d)))
  | _ => None
  end.

Definition save_note (n : Note) : MS Note := λ s,
  let n' := mkNote (next_id (map n_id (notes s))) (n_item n) (n_content n) (n_author n) in
  (Ok n', mkSite (site_db s) (notes s ++ [n']) (emails s)).

Definition create_note `{Validators Note} (item_id : Z) (data : NoteCreate)
  : MS (Z * Note) :=
  try_except_s
    (atomic_s (
       item ← lift (objects_get item_id);
       let note := mkNote 0 (id item) (nc_content data)
                          (default "System"%string (nc_author data)) in
       lift (full_clean note);;
       note ← save_note note;
       mret (201, note)))
    on_missing_or_invalid_s.

(** [Note.objects.get(item_id=item_id, id=note_id)] *)
Definition notes_get (item_id note_id : Z) : MS Note := λ s,
  match List.find (λ n, (n_item n =? item_id) && (n_id n =? note_id)) (notes s) with
  | Some n => (Ok n, s)
  | None => (Raise DoesNotExist, s)
  end.

Definition note_delete (n : Note) : MS unit := λ s,
  (Ok tt, mkSite (site_db s)
                 (List.filter (λ x, negb (n_id x =? n_id n)) (notes s)) (emails s)).

Definition delete_note (item_id note_id : Z) : MS (Z * unit) :=
  try_except_s
    (note ← notes_get item_id note_id;
     note_delete note;;
     mret (204, tt))
    (on_does_not_exist_s (raise_s (HttpError 404 (Message "Note not found")))).

Definition save_email (e : Email) : MS Email := λ s,
  let e' := mkEmail (next_id (map e_id (emails s))) (e_item e) (e_subject e)
                    (e_content e) in
  (Ok e', mkSite (site_db s) (notes s) (emails s ++ [e'])).

Definition create_email `{Validators Email} (item_id : Z) (data : EmailCreate)
  : MS (Z * Email) :=
  try_except_s
    (atomic_s (
       item ← lift (objects_get item_id);
       let email := mkEmail 0 (id item) (ec_subject data) (ec_content data) in
       lift (full_clean email);;
       email ← save_email email;
       mret (201, email)))
    on_missing_or_invalid_s.

(** [Email.objects.get(item_id=item_id, id=email_id)] *)
Definition emails_get (item_id email_id : Z) : MS Email := λ s,
  match List.find (λ e, (e_item e =? item_id) && (e_id e =? email_id)) (emails s) with
  | Some e => (Ok e, s)
  | None => (Raise DoesNotExist, s)
  end.

Definition email_delete (e : Email) : MS unit := λ s,
  (Ok tt, mkSite (site_db s) (notes s)
                 (List.filter (λ x, negb (e_id x =? e_id e)) (emails s))).

Definition delete_email (item_id email_id : Z) : MS (Z * unit) :=
  try_except_s
    (email ← emails_get item_id email_id;
     email_delete email;;
     mret (204, tt))
    (on_does_not_exist_s (raise_s (HttpError 404 (Message "Email not found")))).

(** [ItemOut.resolve_notes] and [ItemOut.resolve_emails] *)
Definition resolve_notes (s : Site) (obj : ItemObj) : list Note :=
  List.filter (λ n, n_item n =? id (row obj)) (notes s).

Definition resolve_emails (s : Site) (obj : ItemObj) : list Email :=
  List.filter (λ e, e_item e =? id (row obj)) (emails s).

(** ** Deleting an item *)

(** The key [i] belongs to a row of [n]'s subtree. *)
Definition doomed (tbl : list Item) (n : Item) (i : Z) : bool :=
  existsb (λ r, in_subtree n r && (id r =? i)) tbl.

(** A soft reference to a deleted row becomes null. *)
Definition soften (tbl : list Item) (n : Item) (ref : option Z) : option Z :=
  match ref with
  | Some i => if doomed tbl n i then None else Some i
  | None => None
  end.

(** Modelled from the spec: §4.2 Delete and §3, deleting a node deletes its
    descendants and the notes, emails and attachments they own, and closes
    the gap in the forest; §4.4, the references of the history log are soft
    and survive as nulls.  The cascade rules are declared with the models,
    outside the handler file. *)
Definition delete_node (s : Site) (n : Item) : Site :=
  let db := site_db s in
  let tbl := items db in
  let width := rght n - lft n + 1 in
  mkSite
    (mkDB (map (close_gap (tree_id n) (rght n) width)
               (List.filter (λ r, negb (in_subtree n r)) tbl))
          (map (λ h, mkHistoryRow (h_id h) (soften tbl n (h_item h))
                                  (soften tbl n (h_old_parent h))
                                  (soften tbl n (h_new_parent h)) (h_changed_at h))
               (history db))
          (List.filter (λ a, negb (doomed tbl n (a_item a))) (attachments db))
          (clock db))
    (List.filter (λ x, negb (doomed tbl n (n_item x))) (notes s))
    (List.filter (λ x, negb (doomed tbl n (e_item x))) (emails s)).

(** [item.delete()] *)
Definition item_delete (item : Item) : MS unit := λ s, (Ok tt, delete_node s item).

Definition delete_item (item_id : Z) : MS (Z * unit) :=
  try_except_s
    (item ← lift (objects_get item_id);
     item_delete item;;
     mret (204, tt))
    (on_does_not_exist_s (raise_s (HttpError 404 (Message "Item not found")))).

Global Instance newest_first_total : Total newest_first.
Proof. intros a b. unfold newest_first. lia. Qed.

Global Instance newest_first_trans : Transitive newest_first.
Proof. intros a b c. unfold newest_first. lia. Qed.

(** ** Vocabulary of the further properties *)

(** The columns of a row that the tree owns, with its key. *)
Definition placement (r : Item) : Z * option Z * Z * Z * Z * Z :=
  (id r, parent_id r, tree_id r, lft r, rght r, level r).


(** Every reference of the log is null or names a row of the table. *)
Definition ref_ok (tbl : list Item) (ref : option Z) : Prop :=
  match ref with
  | Some i => is_Some (lookup_item tbl i)
  | None => True
  end.

Definition refs_ok (db : DB) : Prop :=
  Forall (λ h, ref_ok (items db) (h_item h) ∧ ref_ok (items db) (h_old_parent h)
               ∧ ref_ok (items db) (h_new_parent h)) (history db).



(** Every attachment, note and email belongs to a row of the table. *)
Definition owned_ok (s : Site) : Prop :=
  Forall (λ a, is_Some (lookup_item (items (site_db s)) (a_item a)))
         (attachments (site_db s))
  ∧ Forall (λ n, is_Some (lookup_item (items (site_db s)) (n_item n))) (notes s)
  ∧ Forall (λ e, is_Some (lookup_item (items (site_db s)) (e_item e))) (emails s).




(** * Properties *)

Import ComponentHistorySchema.

Ltac by_computation := apply (bool_decide_unpack _); vm_compute; exact I.

Ltac unfold_m :=
  unfold try_except, atomic, mbind, mret, M_bind, M_ret, raise, get_db, put_db,
    objects_get, refresh_from_db in *.

(** ** The scenario *)

Example scenario_from_creates : build_scenario empty_db = (Ok tt, scenario).
Proof. reflexivity. Qed.

Example scenario_tree_ok : tree_ok (items scenario).
Proof. by_computation. Qed.

(** Moving Bin-1 directly under Warehouse: depth 1, its only ancestor is
    Warehouse, the table still satisfies the invariants, and one history
    entry was written. *)
Example scenario_move_bin :
  ∃ r db', change_parent 3 (mkItemUpdate None None (Some (Some 1))) scenario = (Ok r, db')
           ∧ level r = 1
           ∧ get_ancestors (items db') r false = [warehouse]
           ∧ tree_ok (items db')
           ∧ length (history db') = 1%nat.
Proof.
  eexists _, _. split; [vm_compute; reflexivity|].
  split; [reflexivity|]. split; [reflexivity|]. split; [by_computation|reflexivity].
Qed.

(** Shelf-A made a root and then put back under Warehouse: the table is
    the original one again, with two history entries. *)
Example scenario_round_trip :
  ∃ r1 db1 r2 db2,
    change_parent 2 (mkItemUpdate None None None) scenario = (Ok r1, db1)
    ∧ tree_id r1 = 2 ∧ level r1 = 0 ∧ tree_ok (items db1)
    ∧ change_parent 2 (mkItemUpdate None None (Some (Some 1))) db1 = (Ok r2, db2)
    ∧ items db2 = items scenario
    ∧ length (history db2) = 2%nat.
Proof.
  eexists _, _, _, _. split; [vm_compute; reflexivity|].
  split; [reflexivity|]. split; [reflexivity|]. split; [by_computation|].
  split; [vm_compute; reflexivity|]. split; reflexivity.
Qed.

(** ** Lookups *)

Lemma lookup_item_Some tbl i r : lookup_item tbl i = Some r → r ∈ tbl ∧ id r = i.
Proof.
  unfold lookup_item. intros H. apply find_some in H as [Hin Heq].
  split; [by apply list_elem_of_In | lia].
Qed.

Lemma lookup_item_elem tbl r :
  keys_ok tbl → r ∈ tbl → lookup_item tbl (id r) = Some r.
Proof.
  unfold keys_ok, lookup_item. induction tbl as [|a tbl IH]; intros Hk Hin.
  - by apply elem_of_nil in Hin.
  - rewrite fmap_cons in Hk. apply NoDup_cons in Hk as [Hna Hk]. simpl.
    apply elem_of_cons in Hin as [->|Hin].
    + by rewrite Z.eqb_refl.
    + destruct (id a =? id r) eqn:E; [|by apply IH].
      exfalso. apply Hna. apply Z.eqb_eq in E. rewrite E.
      by apply list_elem_of_fmap_2.
Qed.

Lemma fetch_none tbl : fetch tbl objects_none = [].
Proof. unfold fetch, objects_none. by induction tbl. Qed.

(** ** History display *)

(** C9: a history entry whose item reference is null resolves, without
    failing, to the item name "Deleted Item" (and a null item id); a null
    old or new parent reference resolves to the name "Storage". *)
Theorem history_resolves_deleted (obj : ComponentHistory) :
  (ch_item obj = None →
     item (from_orm obj) = None ∧ item_name (from_orm obj) = Some "Deleted Item"%string)
  ∧ (ch_old_parent obj = None →
     old_parent (from_orm obj) = None
     ∧ old_parent_name (from_orm obj) = Some "Storage"%string)
  ∧ (ch_new_parent obj = None →
     new_parent (from_orm obj) = None
     ∧ new_parent_name (from_orm obj) = Some "Storage"%string).
Proof.
  unfold from_orm; simpl.
  unfold resolve_item, resolve_item_name, resolve_old_parent, resolve_old_parent_name,
    resolve_new_parent, resolve_new_parent_name.
  split; [|split]; intros ->; split; reflexivity.
Qed.

Lemma history_resolves_deleted_witness :
  item_name (from_orm (mkComponentHistory 1 None (Some shelf_a) None 0))
  = Some "Deleted Item"%string
  ∧ new_parent_name (from_orm (mkComponentHistory 1 None (Some shelf_a) None 0))
    = Some "Storage"%string.
Proof.
  destruct (history_resolves_deleted (mkComponentHistory 1 None (Some shelf_a) None 0))
    as (Hi & _ & Hn).
  split; [apply Hi | apply Hn]; reflexivity.
Defined.

(** Reading a stored row whose three references are null does not raise. *)
Lemma read_history_null (db : DB) (h : HistoryRow) :
  h_item h = None → h_old_parent h = None → h_new_parent h = None →
  read_history h db
  = (Ok (mkComponentHistory (h_id h) None None None (h_changed_at h)), db).
Proof. intros Hi Ho Hn. unfold read_history. rewrite Hi, Ho, Hn. reflexivity. Qed.

(** ** Flat listing *)

Lemma flat_flag_not_read (o : ItemObj) :
  attrs o = ∅ →
  getattr (setattr o "is_flat_view" true) "is_flat_view" false = true
  ∧ getattr (setattr o "is_flat_view" true) "_is_flat_view" false = false.
Proof.
  intros He. unfold getattr, setattr; simpl. rewrite He. split.
  - by rewrite lookup_insert_eq.
  - rewrite lookup_insert_ne by done. by rewrite lookup_empty.
Qed.

(** C3: what the code does in flat mode.  Every listed object carries the
    attribute [is_flat_view], but [resolve_children] reads [_is_flat_view],
    so the children of an object are still its child rows; in the scenario
    the flat listing serializes Warehouse with Shelf-A and Shelf-A with
    Bin-1 as children, not with empty lists. *)
Theorem list_items_flat_keeps_children :
  (∀ db : DB, ∃ objs,
      list_items false db = (Ok objs, db) ∧ row <$> objs = items db ∧
      ∀ obj fuel, obj ∈ objs →
        getattr obj "is_flat_view" false = true ∧
        children (serialize (S fuel) (items db) obj)
        = serialize fuel (items db) <$> (load <$> get_children (items db) (row obj)))
  ∧ ∃ objs, list_items false scenario = (Ok objs, scenario) ∧
      (fmap out_id ∘ children) <$> respond (items scenario) objs = [[2]; [3]; []].
Proof.
  split.
  - intros db. eexists. split; [reflexivity|]. split.
    + rewrite <- !list_fmap_compose. apply list_fmap_id.
    + intros obj fuel Hin.
      apply list_elem_of_fmap in Hin as (o & -> & Hin).
      apply list_elem_of_fmap in Hin as (r & -> & Hin).
      destruct (flat_flag_not_read (load r) eq_refl) as [Hset Hread].
      split; [exact Hset|].
      simpl. unfold resolve_children. rewrite Hread. reflexivity.
  - eexists. split; [reflexivity|]. vm_compute. reflexivity.
Qed.

(** ** Search without a predicate *)

(** C5: when no predicate is supplied (each of the three parameters is
    absent, or the empty string, which the handler treats alike), the
    search returns the empty result and does not scan the table. *)
Theorem search_without_predicate (db : DB) (qr_code name description : option string) :
  truthy qr_code = false → truthy name = false → truthy description = false →
  search_items qr_code name description db = (Ok [], db).
Proof.
  intros Hq Hn Hd. unfold search_items, search_filters. rewrite Hq, Hn, Hd.
  unfold_m. simpl. by rewrite fetch_none.
Qed.

Lemma search_without_predicate_witness :
  search_items None None None scenario = (Ok [], scenario).
Proof. apply search_without_predicate; reflexivity. Defined.

(** ** Attachments *)

Section Attachments.
Context `{Validators Attachment}.


(** When the two checks pass and the model's validation does not, the
    upload is refused with that validation's dictionary. *)
Lemma create_attachment_model_invalid
    (db : DB) (item_id : Z) (item : Item) (file : UploadedFile) :
  lookup_item (items db) item_id = Some item →
  let candidate := mkAttachment 0 (id item) (file_name file) (content_type file) in
  startswith (content_type file) ["image/"; "application/"; "text/"] = true →
  size file ≤ 10 * 1024 * 1024 →
  error_dict candidate ≠ ∅ →
  create_attachment item_id file db
  = (Raise (HttpError 400 (FieldErrors (error_dict candidate))), db).
Proof.
  intros Hget candidate Hty Hsz Hbad. unfold create_attachment. unfold_m.
  rewrite Hget, Hty. simpl negb. cbv iota.
  destruct (size file >? 10 * 1024 * 1024) eqn:E; [lia |].
  unfold full_clean. fold candidate. rewrite decide_False by done. reflexivity.
Qed.

End Attachments.


(** ** The tree invariants at work *)

Lemma is_ancestor_of_spec a b :
  is_ancestor_of a b = true ↔ encloses a b ∧ lft b < rght b.
Proof. unfold is_ancestor_of, encloses. rewrite !andb_true_iff. lia. Qed.

Lemma keys_inj tbl a b : keys_ok tbl → a ∈ tbl → b ∈ tbl → id a = id b → a = b.
Proof.
  intros Hk Ha Hb Hid. apply (lookup_item_elem _ _ Hk) in Ha, Hb.
  rewrite Hid in Ha. congruence.
Qed.

Lemma parent_row tbl c p :
  tree_ok tbl → c ∈ tbl → parent_id c = Some p →
  ∃ P, P ∈ tbl ∧ id P = p ∧ encloses P c ∧ level c = level P + 1
       ∧ ∀ x, x ∈ tbl → ¬ (encloses P x ∧ encloses x c).
Proof.
  intros (_ & _ & _ & Hp) Hc Hpar. unfold parents_ok in Hp.
  rewrite Forall_forall in Hp. specialize (Hp c Hc). rewrite Hpar in Hp.
  apply Exists_exists in Hp as (P & HP & Hid & Henc & Hlev & Htight).
  exists P. rewrite Forall_forall in Htight. eauto 10.
Qed.

Lemma encloses_trans a b c : encloses a b → encloses b c → encloses a c.
Proof. unfold encloses. lia. Qed.

Lemma descendant_enclosed tbl n x :
  tree_ok tbl → n ∈ tbl → descendant_of tbl n x → encloses n x.
Proof.
  intros Hok Hn Hd. induction Hd as [x Hx Hpar | x y Hd IH Hx Hy Hpar].
  - destruct (parent_row _ _ _ Hok Hx Hpar) as (P & HP & Hid & Henc & _).
    by rewrite <- (keys_inj tbl P n (proj1 Hok) HP Hn Hid).
  - destruct (parent_row _ _ _ Hok Hx Hpar) as (P & HP & Hid & Henc & _).
    rewrite (keys_inj tbl P y (proj1 Hok) HP Hy Hid) in Henc.
    by eapply encloses_trans.
Qed.

Lemma related_ok db fk :
  (∀ p, fk = Some p → ∃ P, lookup_item (items db) p = Some P) →
  ∃ o, related fk db = (Ok o, db) ∧ id <$> o = fk.
Proof.
  intros Hfk. unfold related. destruct fk as [p|].
  - destruct (Hfk p eq_refl) as (P & HP). exists (Some P). unfold_m. rewrite HP.
    split; [done|]. simpl. f_equal. by apply lookup_item_Some in HP as [_ ?].
  - by exists None.
Qed.

Lemma related_inv db fk res db' :
  related fk db = (res, db') →
  db' = db ∧ ∀ o, res = Ok o → id <$> o = fk.
Proof.
  unfold related. destruct fk as [p|]; unfold_m.
  - destruct (lookup_item (items db) p) as [P|] eqn:HP; intros [= <- <-];
      (split; [done|]); intros o [= <-].
    simpl. f_equal. by apply lookup_item_Some in HP as [_ ?].
  - intros [= <- <-]. split; [done|]. by intros o [= <-].
Qed.

Lemma validate_inv db item pid res db' :
  validate_parent_relationship item pid db = (res, db') →
  db' = db ∧
  match lookup_item (items db) pid with
  | None => res = Raise (HttpError 404 (Message "Parent item not found"))
  | Some p =>
      if (id p =? id item) || is_ancestor_of item p
      then res = Raise (HttpError 400 (Message "Circular dependency detected"))
      else res = Ok p
  end.
Proof.
  unfold validate_parent_relationship. unfold_m.
  destruct (lookup_item (items db) pid) as [p|]; simpl.
  - destruct ((id p =? id item) || is_ancestor_of item p); by intros [= <- <-].
  - by intros [= <- <-].
Qed.

(** ** Transactions and the history log *)

Lemma on_does_not_exist_reraises {A} e0 : reraises (on_does_not_exist (A:=A) (raise e0)).
Proof. intros [] h [= <-]. eauto. Qed.

Lemma on_missing_or_invalid_reraises {A} : reraises (@on_missing_or_invalid A).
Proof. intros [] h [= <-]; eauto. Qed.

Lemma on_validation_error_reraises {A} : reraises (@on_validation_error A).
Proof. intros [] h [= <-]; eauto. Qed.

Lemma try_atomic_rollback {A} (body : M A) handler db e db' :
  reraises handler →
  try_except (atomic body) handler db = (Raise e, db') → db' = db.
Proof.
  intros Hh. unfold try_except, atomic.
  destruct (body db) as [[a|e0] db1]; [intros [=]|].
  destruct (handler e0) as [h|] eqn:E.
  - destruct (Hh _ _ E) as (e' & ->). by intros [= _ <-].
  - by intros [= _ <-].
Qed.

Lemma keeps_history_bind {A B} (m : M A) (f : A → M B) :
  keeps_history m → (∀ a, keeps_history (f a)) → keeps_history (m ≫= f).
Proof.
  intros Hm Hf db. unfold mbind, M_bind. specialize (Hm db).
  destruct (m db) as [[a|e] db1]; simpl in *; [|done].
  by rewrite Hf.
Qed.

Lemma keeps_history_ret {A} (a : A) : keeps_history (mret a).
Proof. done. Qed.

Lemma keeps_history_raise {A} e : keeps_history (raise (A:=A) e).
Proof. done. Qed.

Lemma keeps_history_get i : keeps_history (objects_get i).
Proof. intros db. unfold objects_get. by destruct (lookup_item _ _). Qed.

Lemma keeps_history_related fk : keeps_history (related fk).
Proof.
  destruct fk; simpl; [|apply keeps_history_ret].
  apply keeps_history_bind; [apply keeps_history_get|intros; apply keeps_history_ret].
Qed.

Lemma keeps_history_move_to item target : keeps_history (move_to item target).
Proof.
  intros db. unfold move_to. unfold_m.
  by destruct (move_node (items db) item target).
Qed.

Lemma keeps_history_save item : keeps_history (save item).
Proof.
  unfold save. apply keeps_history_bind; [apply keeps_history_get|]. intros old.
  apply keeps_history_bind.
  - case_decide; [apply keeps_history_ret|].
    apply keeps_history_bind; [apply keeps_history_related|].
    intros; apply keeps_history_move_to.
  - intros _. intros db. unfold_m. simpl. by destruct (lookup_item _ _).
Qed.

Lemma keeps_history_try {A} (body : M A) handler :
  keeps_history body → reraises handler → keeps_history (try_except body handler).
Proof.
  intros Hb Hh db. unfold try_except. specialize (Hb db).
  destruct (body db) as [[a|e] db1]; simpl in *; [done|].
  destruct (handler e) as [h|] eqn:E; [|done].
  by destruct (Hh _ _ E) as (e' & ->).
Qed.

Lemma keeps_history_atomic {A} (body : M A) :
  keeps_history body → keeps_history (atomic body).
Proof.
  intros Hb db. unfold atomic. specialize (Hb db).
  by destruct (body db) as [[a|e] db1].
Qed.

Lemma keeps_history_validate item pid : keeps_history (validate_parent_relationship item pid).
Proof.
  intros db. destruct (validate_parent_relationship item pid db) as [res db'] eqn:E.
  by apply validate_inv in E as [-> _].
Qed.

Lemma keeps_history_full_clean `{Validators A} (obj : A) : keeps_history (full_clean obj).
Proof. intros db. unfold full_clean. by case_decide. Qed.

Lemma keeps_history_update `{Validators Item} assign item_id data :
  keeps_history (update_with assign item_id data).
Proof.
  unfold update_with. apply keeps_history_try; [|apply on_missing_or_invalid_reraises].
  apply keeps_history_atomic.
  apply keeps_history_bind; [apply keeps_history_get|]. intros item.
  apply keeps_history_bind.
  - destruct (data_parent_id data); [|apply keeps_history_ret].
    apply keeps_history_bind; [apply keeps_history_validate|].
    intros; apply keeps_history_ret.
  - intros _. apply keeps_history_bind; [apply keeps_history_full_clean|].
    intros _. apply keeps_history_save.
Qed.

(** ** Reparenting *)

Lemma bind_Ok_inv {A B} (m : M A) (f : A → M B) db b db' :
  (m ≫= f) db = (Ok b, db') → ∃ a db1, m db = (Ok a, db1) ∧ f a db1 = (Ok b, db').
Proof.
  unfold mbind, M_bind. destruct (m db) as [[a|e] db1]; [eauto|intros [=]].
Qed.

Lemma atomic_Ok_inv {A} (body : M A) db a db' :
  atomic body db = (Ok a, db') → body db = (Ok a, db').
Proof. unfold atomic. by destruct (body db) as [[?|?] ?]. Qed.

Lemma try_Ok_inv {A} (body : M A) handler db a db' :
  reraises handler →
  try_except body handler db = (Ok a, db') → body db = (Ok a, db').
Proof.
  intros Hh. unfold try_except. destruct (body db) as [[a0|e] db1]; [done|].
  destruct (handler e) as [h|] eqn:E; [|intros [=]].
  destruct (Hh _ _ E) as (e' & ->). intros [=].
Qed.

(** A successful [change_parent] has moved the row and appended exactly one
    history entry: the item, its old parent and its new parent. *)
Lemma change_parent_commits (db db' : DB) (item_id : Z) (data : ItemUpdate) (r : Item) :
  change_parent item_id data db = (Ok r, db') →
  ∃ n target,
    lookup_item (items db) item_id = Some n
    ∧ id <$> target = data_parent_id data
    ∧ move_node (items db) n target = Some (items db')
    ∧ history db'
      = history db ++ [mkHistoryRow (next_id (map h_id (history db))) (Some item_id)
                                    (parent_id n) (data_parent_id data) (clock db)].
Proof.
  unfold change_parent. intros Hrun.
  apply try_Ok_inv in Hrun; [|apply on_does_not_exist_reraises].
  apply atomic_Ok_inv in Hrun.
  apply bind_Ok_inv in Hrun as (n & dba & Hn & Hrun).
  unfold objects_get in Hn.
  destruct (lookup_item (items db) item_id) as [n0|] eqn:Hget; [|done].
  injection Hn as -> <-.
  apply bind_Ok_inv in Hrun as (old & dbb & Hold & Hrun).
  apply related_inv in Hold as [-> Hold]. specialize (Hold old eq_refl).
  apply bind_Ok_inv in Hrun as (target & dbc & Hnew & Hrun).
  assert (dbc = db ∧ id <$> target = data_parent_id data) as [-> Htarget].
  { destruct (data_parent_id data) as [pid|]; [|by injection Hnew as <- <-].
    apply bind_Ok_inv in Hnew as (p & db2 & Hv & Hret). injection Hret as <- <-.
    apply validate_inv in Hv as [-> Hv]. split; [done|].
    destruct (lookup_item (items db) pid) as [p0|] eqn:Hp; [|done].
    destruct ((id p0 =? id n) || is_ancestor_of n p0); [done|].
    injection Hv as <-. simpl. by apply lookup_item_Some in Hp as [_ ->]. }
  apply bind_Ok_inv in Hrun as ([] & db1 & Hmove & Hrun).
  unfold move_to, mbind, M_bind, get_db, put_db, raise in Hmove.
  destruct (move_node (items db) n target) as [tbl|] eqn:Htbl; [|done].
  injection Hmove as <-.
  apply bind_Ok_inv in Hrun as (n' & db2 & Hn' & Hrun).
  unfold refresh_from_db, objects_get in Hn'. simpl in Hn'. destruct (lookup_item tbl (id n)) as [n1|] eqn:Hget'; [|done].
  injection Hn' as -> <-.
  apply bind_Ok_inv in Hrun as (h & db2 & Hh & Hret).
  injection Hret as <- <-. unfold history_create in Hh. injection Hh as <- <-.
  exists n, target. simpl. repeat split; try done.
  apply lookup_item_Some in Hget as [_ Hid]. apply lookup_item_Some in Hget' as [_ Hid'].
  by rewrite Hold, Htarget, Hid', Hid.
Qed.

(** A failed [change_parent] leaves the whole database as it was. *)
Lemma change_parent_rolls_back (db db' : DB) (item_id : Z) (data : ItemUpdate) (e : exn) :
  change_parent item_id data db = (Raise e, db') → db' = db.
Proof. apply try_atomic_rollback, on_does_not_exist_reraises. Qed.

(** C1: what the code does on the update endpoints.  Neither [update_item]
    nor [partial_update_item] ever writes the history log, although a
    [parent_id] in the request reparents the row: in the scenario,
    [PUT /items/3] with [parent_id = 1] moves Bin-1 from Shelf-A to
    Warehouse and the log stays empty, where [change_parent] makes the same
    move and appends the entry (3, 2, 1). *)
Theorem update_item_skips_history :
  (∀ (V : Validators Item) (item_id : Z) (data : ItemUpdate) (db : DB),
      history (update_item item_id data db).2 = history db
      ∧ history (partial_update_item item_id data db).2 = history db)
  ∧ (let data := mkItemUpdate None None (Some (Some 1)) in
     ∃ r db',
       update_item (H := unconstrained) 3 data scenario = (Ok r, db')
       ∧ parent_id <$> lookup_item (items scenario) 3 = Some (Some 2)
       ∧ parent_id <$> lookup_item (items db') 3 = Some (Some 1)
       ∧ history db' = history scenario
       ∧ ∃ r1 db1, change_parent 3 data scenario = (Ok r1, db1)
                   ∧ items db1 = items db'
                   ∧ history db1 = [mkHistoryRow 1 (Some 3) (Some 2) (Some 1) 0]).
Proof.
  split.
  - intros V item_id data db. split; apply keeps_history_update.
  - eexists _, _. split; [vm_compute; reflexivity|].
    repeat split. eexists _, _. split; [vm_compute; reflexivity|]. by split.
Qed.

Section Circular.
Context `{Validators Item}.

(** C2: a move request for a node [n] whose target parent [p] is [n]
    itself or a descendant of [n] (by parent links, or by the containment
    test of the query engine) fails with status 400 and the message
    "Circular dependency detected", on the reparent endpoint and on both
    update endpoints, and the database (every row's parent and
    coordinates, and the history log) is exactly what it was. *)
Theorem move_into_own_subtree_rejected (db : DB) (n p : Item) (data : ItemUpdate) :
  tree_ok (items db) → n ∈ items db → p ∈ items db →
  data_parent_id data = Some (id p) →
  p = n ∨ descendant_of (items db) n p ∨ is_ancestor_of n p = true →
  let refusal : result Item * DB :=
    (Raise (HttpError 400 (Message "Circular dependency detected")), db) in
  change_parent (id n) data db = refusal
  ∧ update_item (id n) data db = refusal
  ∧ partial_update_item (id n) data db = refusal.
Proof.
  intros Hok Hn Hp Hdata Hcirc refusal.
  pose proof (lookup_item_elem _ _ (proj1 Hok) Hn) as Hgn.
  pose proof (lookup_item_elem _ _ (proj1 Hok) Hp) as Hgp.
  assert ((id p =? id n) || is_ancestor_of n p = true) as Hcheck.
  { destruct Hcirc as [->|[Hd|Hanc]];
      [by rewrite Z.eqb_refl | | by rewrite Hanc, orb_true_r].
    apply orb_true_iff; right. apply is_ancestor_of_spec. split.
    - by eapply descendant_enclosed.
    - destruct Hok as (_ & Hb & _). unfold bounds_ok in Hb.
      rewrite Forall_forall in Hb. by apply Hb. }
  assert (validate_parent_relationship n (id p) db
          = (Raise (HttpError 400 (Message "Circular dependency detected")), db))
    as Hv.
  { destruct (validate_parent_relationship n (id p) db) as [res db1] eqn:Hv.
    apply validate_inv in Hv as [-> Hv]. rewrite Hgp, Hcheck in Hv. by subst. }
  destruct (related_ok db (parent_id n)) as (old & Hold & _).
  { intros q Hq. destruct (parent_row _ _ _ Hok Hn Hq) as (P & HP & <- & _).
    exists P. by apply lookup_item_elem; [apply Hok|]. }
  repeat split.
  - unfold change_parent. unfold_m. rewrite Hgn, Hold, Hdata. simpl.
    by rewrite Hv.
  - unfold update_item, update_with. unfold_m. rewrite Hgn, Hdata. simpl.
    by rewrite Hv.
  - unfold partial_update_item, update_with. unfold_m. rewrite Hgn, Hdata. simpl.
    by rewrite Hv.
Qed.
End Circular.

Lemma move_into_own_subtree_rejected_witness :
  change_parent 1 (mkItemUpdate None None (Some (Some 3))) scenario
  = (Raise (HttpError 400 (Message "Circular dependency detected")), scenario).
Proof.
  refine (proj1 (move_into_own_subtree_rejected (H := unconstrained) scenario
                   warehouse bin_1 (mkItemUpdate None None (Some (Some 3))) _ _ _ _ _)).
  - by_computation.
  - by_computation.
  - by_computation.
  - reflexivity.
  - right; left. apply descendant_below with shelf_a.
    + apply descendant_child; [by_computation | reflexivity].
    + by_computation.
    + by_computation.
    + reflexivity.
Defined.

(** ** Search *)

Lemma fetch_elem tbl q x : x ∈ fetch tbl q ↔ x ∈ tbl ∧ q x = true.
Proof. unfold fetch. rewrite !list_elem_of_In. apply filter_In. Qed.

Lemma reduce_or_direct_hit qr_code name description r :
  truthy qr_code || truthy name || truthy description = true →
  reduce_or (search_filters qr_code name description) r
  = direct_hit qr_code name description r.
Proof.
  unfold search_filters, direct_hit, reduce_or, q_or.
  destruct (truthy qr_code), (truthy name), (truthy description); simpl;
    intros Hsome; try discriminate; rewrite ?orb_false_r; reflexivity.
Qed.

Lemma fold_or_existsb {A} (f : A → Q) (l : list A) (q0 : Q) (x : Item) :
  fold_left (λ acc a, q_or acc (f a)) l q0 x = q0 x || existsb (λ a, f a x) l.
Proof.
  revert q0. induction l as [|a l IH]; intros q0; simpl.
  - by rewrite orb_false_r.
  - rewrite IH. unfold q_or. by rewrite orb_assoc.
Qed.

(** C4: a search with at least one predicate supplied (a non-empty
    external code, name or description) returns, without duplicates (by
    row, and by id since keys are unique), exactly the rows that are a
    direct hit of some supplied predicate or lie, in the same tree,
    strictly inside the interval of a direct hit. *)
Theorem search_collects_hit_subtrees
    (db : DB) (qr_code name description : option string) :
  truthy qr_code || truthy name || truthy description = true →
  ∃ res,
    search_items qr_code name description db = (Ok res, db)
    ∧ NoDup res
    ∧ (keys_ok (items db) → NoDup (id <$> res))
    ∧ ∀ x, x ∈ res ↔
           x ∈ items db
           ∧ ∃ hit, hit ∈ items db
                    ∧ direct_hit qr_code name description hit = true
                    ∧ (id x = id hit
                       ∨ (tree_id x = tree_id hit ∧ lft hit < lft x ∧ rght x < rght hit)).
Proof.
  intros Hsome. unfold search_items. unfold_m.
  destruct (search_filters qr_code name description) as [|q0 qs] eqn:Hf.
  { exfalso. unfold search_filters in Hf.
    destruct (truthy qr_code), (truthy name), (truthy description); simpl in *;
      discriminate. }
  rewrite <- Hf. eexists. split; [reflexivity|].
  assert (∀ x, x ∈ remove_dups (fetch (items db)
            (fold_left (λ all_items item,
               q_or all_items (q_or (q_pk (id item)) (descendant_filter item)))
               (fetch (items db) (reduce_or (search_filters qr_code name description)))
               objects_none))
          ↔ x ∈ items db
            ∧ ∃ hit, hit ∈ items db
                     ∧ direct_hit qr_code name description hit = true
                     ∧ (id x = id hit
                        ∨ (tree_id x = tree_id hit ∧ lft hit < lft x ∧ rght x < rght hit)))
    as Hmem.
  { intros x. rewrite elem_of_remove_dups, fetch_elem.
    rewrite (fold_or_existsb (λ item, q_or (q_pk (id item)) (descendant_filter item))).
    unfold objects_none; simpl. rewrite existsb_exists.
    split; intros [Hx (hit & Hhit & Hq)]; (split; [done|]); exists hit.
    - apply list_elem_of_In, fetch_elem in Hhit as [Hhit Hd].
      rewrite reduce_or_direct_hit in Hd by done. split; [done|]. split; [done|].
      unfold q_or, q_pk, descendant_filter in Hq.
      rewrite orb_true_iff, !andb_true_iff in Hq. lia.
    - destruct Hq as [Hd Hq]. split.
      + apply list_elem_of_In, fetch_elem. by rewrite reduce_or_direct_hit.
      + unfold q_or, q_pk, descendant_filter.
        rewrite orb_true_iff, !andb_true_iff. lia. }
  split; [apply NoDup_remove_dups|]. split; [|exact Hmem].
  intros Hk. apply NoDup_fmap_2_strong; [|apply NoDup_remove_dups].
  intros a b Ha Hb. apply Hmem in Ha as [Ha _]. apply Hmem in Hb as [Hb _].
  by apply keys_inj with (items db).
Qed.

Lemma search_collects_hit_subtrees_witness :
  ∃ res, search_items None (Some "shelf"%string) None scenario = (Ok res, scenario)
         ∧ NoDup res ∧ bin_1 ∈ res.
Proof.
  destruct (search_collects_hit_subtrees scenario None (Some "shelf"%string) None eq_refl)
    as (res & Hrun & Hnd & _ & Hmem).
  exists res. split; [exact Hrun|]. split; [exact Hnd|].
  apply Hmem. split; [by_computation|].
  exists shelf_a. split; [by_computation|]. split; [reflexivity|].
  right. simpl. lia.
Defined.

(** ** Validation *)



Lemma run_bind_Ok {A B} (m : M A) (f : A → M B) db a db1 :
  m db = (Ok a, db1) → (m ≫= f) db = f a db1.
Proof. intros Hm. unfold mbind, M_bind. by rewrite Hm. Qed.

Lemma run_bind_Raise {A B} (m : M A) (f : A → M B) db e db1 :
  m db = (Raise e, db1) → (m ≫= f) db = (Raise e, db1).
Proof. intros Hm. unfold mbind, M_bind. by rewrite Hm. Qed.

Lemma run_atomic_Raise {A} (body : M A) db e db1 :
  body db = (Raise e, db1) → atomic body db = (Raise e, db).
Proof. intros Hb. unfold atomic. by rewrite Hb. Qed.

Lemma run_try_Raise {A} (body : M A) handler db e db1 h :
  body db = (Raise e, db1) → handler e = Some h → try_except body handler db = h db1.
Proof. intros Hb Hh. unfold try_except. by rewrite Hb, Hh. Qed.

Lemma run_try_Ok {A} (body : M A) handler db a db1 :
  body db = (Ok a, db1) → try_except body handler db = (Ok a, db1).
Proof. intros Hb. unfold try_except. by rewrite Hb. Qed.

Lemma full_clean_invalid `{Validators A} (obj : A) db :
  error_dict obj ≠ ∅ → full_clean obj db = (Raise (ValidationError (error_dict obj)), db).
Proof. intros Hbad. unfold full_clean. by rewrite decide_False. Qed.

Section Validation.
Context `{Validators Item}.

End Validation.



(** ** Ordered queries on the nested set *)

Lemma order_by_lft_elem l x : x ∈ order_by_lft l ↔ x ∈ l.
Proof. unfold order_by_lft. by rewrite merge_sort_Permutation. Qed.

Lemma order_by_lft_sorted l : StronglySorted lft_le (order_by_lft l).
Proof. apply StronglySorted_merge_sort; apply _. Qed.

Lemma order_by_lft_NoDup l : NoDup l → NoDup (order_by_lft l).
Proof. unfold order_by_lft. by rewrite merge_sort_Permutation. Qed.

Lemma tree_ok_NoDup tbl : tree_ok tbl → NoDup tbl.
Proof. intros (Hk & _). by apply NoDup_fmap_1 in Hk. Qed.

Lemma row_bounds tbl r : tree_ok tbl → r ∈ tbl → lft r < rght r.
Proof.
  intros (_ & Hb & _) Hr. unfold bounds_ok in Hb. rewrite Forall_forall in Hb. auto.
Qed.

Lemma rows_laminar tbl a b :
  tree_ok tbl → a ∈ tbl → b ∈ tbl → tree_id a = tree_id b →
  a = b ∨ rght a < lft b ∨ rght b < lft a ∨ encloses a b ∨ encloses b a.
Proof.
  intros (_ & _ & Hl & _) Ha Hb. unfold laminar in Hl.
  rewrite Forall_forall in Hl. specialize (Hl a Ha).
  rewrite Forall_forall in Hl. by apply Hl.
Qed.

Lemma root_row tbl c :
  tree_ok tbl → c ∈ tbl → parent_id c = None → ∀ x, x ∈ tbl → ¬ encloses x c.
Proof.
  intros (_ & _ & _ & Hp) Hc Hroot. unfold parents_ok in Hp.
  rewrite Forall_forall in Hp. specialize (Hp c Hc). rewrite Hroot in Hp.
  destruct Hp as [_ Hp]. by rewrite Forall_forall in Hp.
Qed.

Lemma same_lft_same_row tbl a b :
  tree_ok tbl → a ∈ tbl → b ∈ tbl → tree_id a = tree_id b → lft a = lft b → a = b.
Proof.
  intros Hok Ha Hb Ht Hl.
  pose proof (row_bounds _ _ Hok Ha). pose proof (row_bounds _ _ Hok Hb).
  destruct (rows_laminar _ _ _ Hok Ha Hb Ht) as [?|[?|[?|[?|?]]]];
    unfold encloses in *; [done|lia..].
Qed.

(** [x]'s interval is around [n]'s: the filter of the ancestors query. *)
Lemma around_spec tbl n x :
  tree_ok tbl → n ∈ tbl → x ∈ tbl →
  (tree_id x = tree_id n ∧ lft x ≤ lft n ∧ rght n ≤ rght x)
  ↔ (x = n ∨ is_ancestor_of x n = true).
Proof.
  intros Hok Hn Hx. rewrite is_ancestor_of_spec.
  pose proof (row_bounds _ _ Hok Hn). pose proof (row_bounds _ _ Hok Hx).
  split.
  - intros (Ht & Hl & Hr).
    destruct (rows_laminar _ _ _ Hok Hx Hn Ht) as [?|[?|[?|[?|?]]]];
      unfold encloses in *; [by left|lia|lia|right; lia|lia].
  - intros [->|[Henc _]]; unfold encloses in *; lia.
Qed.

Lemma strictly_sorted tbl l :
  tree_ok tbl → (∀ x, x ∈ l → x ∈ tbl) → (∀ x y, x ∈ l → y ∈ l → tree_id x = tree_id y) →
  NoDup l → StronglySorted lft_le l → StronglySorted (λ a b, lft a < lft b) l.
Proof.
  intros Hok Hsub Htree Hnd Hs. induction Hs as [|a l Hs IH Hall]; constructor.
  - apply IH.
    + intros x Hx. apply Hsub. by right.
    + intros x y Hx Hy. apply Htree; by right.
    + by apply NoDup_cons in Hnd as [_ ?].
  - rewrite Forall_forall in Hall |- *. intros x Hx.
    specialize (Hall x Hx). unfold lft_le in Hall.
    destruct (decide (lft a = lft x)) as [Heq|]; [|lia].
    exfalso. apply NoDup_cons in Hnd as [Hna _]. apply Hna.
    rewrite (same_lft_same_row tbl a x); try done.
    + apply Hsub. by left.
    + apply Hsub. by right.
    + apply Htree; [by left | by right].
Qed.

Lemma sorted_last l n :
  StronglySorted (λ a b, lft a < lft b) l → n ∈ l → (∀ x, x ∈ l → lft x ≤ lft n) →
  last l = Some n.
Proof.
  intros Hs. induction Hs as [|a l Hs IH Hall]; intros Hn Hmax.
  - by apply elem_of_nil in Hn.
  - destruct l as [|b l].
    + apply list_elem_of_singleton in Hn. by subst.
    + change (last (b :: l) = Some n). rewrite Forall_forall in Hall.
      apply IH.
      * apply elem_of_cons in Hn as [->|Hn]; [|done].
        exfalso. assert (lft a < lft b) by (apply Hall; by left).
        assert (lft b ≤ lft a) by (apply Hmax; right; by left). lia.
      * intros x Hx. apply Hmax. by right.
Qed.

Lemma sorted_linked l :
  StronglySorted (λ a b, lft a < lft b) l →
  (∀ a b, a ∈ l → b ∈ l → lft a < lft b →
          (∀ x, x ∈ l → lft x ≤ lft a ∨ lft b ≤ lft x) →
          parent_id b = Some (id a)) →
  parent_linked l.
Proof.
  intros Hs. induction Hs as [|a l Hs IH Hall]; intros Hadj; [done|].
  rewrite Forall_forall in Hall.
  destruct l as [|b l]; [done|]. split.
  - apply Hadj; [by left | by right; left | apply Hall; by left |].
    intros x Hx. apply elem_of_cons in Hx as [->|Hx]; [lia|].
    apply elem_of_cons in Hx as [->|Hx]; [lia|].
    apply StronglySorted_inv in Hs as [_ Hb]. rewrite Forall_forall in Hb.
    specialize (Hb x Hx). lia.
  - apply IH. intros a' b' Ha' Hb' Hlt Hgap.
    apply Hadj; [by right | by right | done |].
    intros x Hx. apply elem_of_cons in Hx as [->|Hx]; [|by apply Hgap].
    left. specialize (Hall a' Ha'). lia.
Qed.

Lemma adjacent_is_parent tbl n a b :
  tree_ok tbl → n ∈ tbl → a ∈ tbl → b ∈ tbl →
  (tree_id a = tree_id n ∧ lft a ≤ lft n ∧ rght n ≤ rght a) →
  (tree_id b = tree_id n ∧ lft b ≤ lft n ∧ rght n ≤ rght b) →
  lft a < lft b →
  (∀ x, x ∈ tbl → tree_id x = tree_id n ∧ lft x ≤ lft n ∧ rght n ≤ rght x →
        lft x ≤ lft a ∨ lft b ≤ lft x) →
  parent_id b = Some (id a).
Proof.
  intros Hok Hn Ha Hb Han Hbn Hlt Hgap.
  pose proof (row_bounds _ _ Hok Hn). pose proof (row_bounds _ _ Hok Ha).
  pose proof (row_bounds _ _ Hok Hb).
  assert (encloses a b) as Hab.
  { destruct (rows_laminar _ _ _ Hok Ha Hb) as [?|[?|[?|[?|?]]]];
      unfold encloses in *; [lia|subst; lia|lia|lia|done|lia]. }
  destruct (parent_id b) as [p|] eqn:Hpar.
  - destruct (parent_row _ _ _ Hok Hb Hpar) as (P & HP & <- & HPb & _ & Htight).
    pose proof (row_bounds _ _ Hok HP).
    assert (lft P ≤ lft a ∨ lft b ≤ lft P) as Hpos.
    { apply Hgap; [done|]. unfold encloses in *. lia. }
    f_equal. f_equal.
    destruct (rows_laminar _ _ _ Hok HP Ha) as [?|[?|[?|[?|?]]]];
      unfold encloses in *; [lia|done|lia|lia| |lia].
    exfalso. apply (Htight a Ha). unfold encloses. lia.
  - exfalso. by apply (root_row _ _ Hok Hb Hpar a Ha).
Qed.

(** C7: for an existing node [n], the tree endpoint (descendants with
    [include_self=True]) returns, once each, exactly the rows of [n]'s forest
    whose [lft] lies in [[lft n, rght n]], and the sequence starts with [n]. *)
Theorem get_item_tree_subtree_from_node (db : DB) (item_id : Z) (n : Item) :
  tree_ok (items db) → lookup_item (items db) item_id = Some n →
  ∃ l, get_item_tree item_id db = (Ok l, db)
       ∧ NoDup l
       ∧ (∀ x, x ∈ l ↔ x ∈ items db ∧ tree_id x = tree_id n
                        ∧ lft n ≤ lft x ∧ lft x ≤ rght n)
       ∧ head l = Some n.
Proof.
  intros Hok Hget. pose proof (lookup_item_Some _ _ _ Hget) as [Hn _].
  pose proof (row_bounds _ _ Hok Hn) as Hbn.
  exists (get_descendants (items db) n true). split.
  { unfold get_item_tree. apply run_try_Ok.
    rewrite (run_bind_Ok _ _ db n db); [done|]. unfold objects_get. by rewrite Hget. }
  assert (∀ x, x ∈ get_descendants (items db) n true
               ↔ x ∈ items db ∧ tree_id x = tree_id n ∧ lft n ≤ lft x ∧ lft x ≤ rght n)
    as Hmem.
  { intros x. unfold get_descendants. rewrite order_by_lft_elem, list_elem_of_filter.
    tauto. }
  split; [|split; [exact Hmem|]].
  { apply order_by_lft_NoDup, NoDup_filter. by apply tree_ok_NoDup. }
  assert (n ∈ get_descendants (items db) n true) as Hin by (apply Hmem; repeat split; [done|done|lia..]).
  pose proof (order_by_lft_sorted
                (filter (λ x, tree_id x = tree_id n ∧ lft n ≤ lft x ∧ lft x ≤ rght n)
                        (items db))) as Hs.
  change (StronglySorted lft_le (get_descendants (items db) n true)) in Hs.
  destruct (get_descendants (items db) n true) as [|h t]; [by apply elem_of_nil in Hin|].
  simpl. f_equal.
  assert (h ∈ h :: t) as Hh by left. apply Hmem in Hh as (Hh & Hth & Hlo & _).
  apply (same_lft_same_row (items db)); try done.
  apply StronglySorted_inv in Hs as [_ Hall]. rewrite Forall_forall in Hall.
  apply elem_of_cons in Hin as [->|Hin]; [done|].
  specialize (Hall n Hin). unfold lft_le in Hall. lia.
Qed.

Lemma get_item_tree_subtree_from_node_witness :
  ∃ l, get_item_tree 2 scenario = (Ok l, scenario) ∧ head l = Some shelf_a.
Proof.
  destruct (get_item_tree_subtree_from_node scenario 2 shelf_a) as (l & Hrun & _ & _ & Hhd).
  - by_computation.
  - reflexivity.
  - by exists l.
Defined.

(** C6: for an existing node [n], the breadcrumb endpoint (ancestors with
    [include_self=True]) returns exactly [n] and its ancestors, in strictly
    ascending [lft]; the first row is a root, each row is the parent of the
    next one, and the last row is [n]: the chain from [n]'s root to [n]. *)
Theorem get_breadcrumb_root_to_node (db : DB) (item_id : Z) (n : Item) :
  tree_ok (items db) → lookup_item (items db) item_id = Some n →
  ∃ chain, get_breadcrumb item_id db = (Ok chain, db)
           ∧ (∀ x, x ∈ chain ↔ x ∈ items db ∧ (x = n ∨ is_ancestor_of x n = true))
           ∧ StronglySorted (λ a b, lft a < lft b) chain
           ∧ (∃ root, head chain = Some root ∧ parent_id root = None)
           ∧ parent_linked chain
           ∧ last chain = Some n.
Proof.
  intros Hok Hget. pose proof (lookup_item_Some _ _ _ Hget) as [Hn _].
  pose proof (row_bounds _ _ Hok Hn) as Hbn.
  exists (get_ancestors (items db) n true). split.
  { unfold get_breadcrumb. apply run_try_Ok.
    rewrite (run_bind_Ok _ _ db n db); [done|]. unfold objects_get. by rewrite Hget. }
  assert (∀ x, x ∈ get_ancestors (items db) n true
               ↔ x ∈ items db ∧ tree_id x = tree_id n ∧ lft x ≤ lft n ∧ rght n ≤ rght x)
    as Hmem.
  { intros x. unfold get_ancestors. rewrite order_by_lft_elem, list_elem_of_filter.
    tauto. }
  assert (n ∈ get_ancestors (items db) n true) as Hin by (apply Hmem; repeat split; [done|done|lia..]).
  assert (StronglySorted (λ a b, lft a < lft b) (get_ancestors (items db) n true))
    as Hs.
  { apply (strictly_sorted (items db)); [done | | | |].
    - intros x Hx. by apply Hmem in Hx as [? _].
    - intros x y Hx Hy. apply Hmem in Hx as (_ & -> & _).
      by apply Hmem in Hy as (_ & -> & _).
    - apply order_by_lft_NoDup, NoDup_filter. by apply tree_ok_NoDup.
    - apply order_by_lft_sorted. }
  split; [|split; [exact Hs|split; [|split]]].
  - intros x. rewrite Hmem. split.
    + intros (Hx & Haround). split; [done|]. by apply (around_spec (items db)).
    + intros (Hx & Hrel). split; [done|]. by apply (around_spec (items db)).
  - destruct (get_ancestors (items db) n true) as [|h t] eqn:Hchain;
      [by apply elem_of_nil in Hin|].
    exists h. split; [done|].
    assert (h ∈ h :: t) as Hh by left. apply Hmem in Hh as (Hh & Hth & Hlo & Hhi).
    destruct (parent_id h) as [p|] eqn:Hpar; [exfalso|done].
    destruct (parent_row _ _ _ Hok Hh Hpar) as (P & HP & _ & HPh & _).
    assert (P ∈ h :: t) as HPin.
    { apply Hmem. unfold encloses in HPh. split; [done|]. lia. }
    apply StronglySorted_inv in Hs as [_ Hall]. rewrite Forall_forall in Hall.
    unfold encloses in HPh.
    apply elem_of_cons in HPin as [->|HPin]; [lia|].
    specialize (Hall P HPin). simpl in Hall. lia.
  - apply sorted_linked; [done|]. intros a b Ha Hb Hlt Hgap.
    apply Hmem in Ha as (Ha & Han). apply Hmem in Hb as (Hb & Hbn').
    apply (adjacent_is_parent (items db) n); try done.
    intros x Hx Hxn. apply Hgap, Hmem. by split.
  - apply sorted_last; [done | done |]. intros x Hx. apply Hmem in Hx. lia.
Qed.

Lemma get_breadcrumb_root_to_node_witness :
  ∃ chain, get_breadcrumb 3 scenario = (Ok chain, scenario) ∧ last chain = Some bin_1.
Proof.
  destruct (get_breadcrumb_root_to_node scenario 3 bin_1)
    as (chain & Hrun & _ & _ & _ & _ & Hlast).
  - by_computation.
  - reflexivity.
  - by exists chain.
Defined.

Example breadcrumb_of_bin_1 :
  get_breadcrumb 3 scenario = (Ok [warehouse; shelf_a; bin_1], scenario).
Proof. reflexivity. Qed.

Example tree_of_warehouse :
  get_item_tree 1 scenario = (Ok [warehouse; shelf_a; bin_1], scenario).
Proof. reflexivity. Qed.

(** * Further properties of the handlers *)

(** ** Failures, and what reads do *)

Lemma head_fetch_pk tbl i : head (fetch tbl (q_pk i)) = lookup_item tbl i.
Proof.
  unfold fetch, lookup_item, q_pk. induction tbl as [|r tbl IH]; [done|].
  simpl. by destruct (id r =? i).
Qed.

Lemma get_item_run db i :
  get_item i db
  = match lookup_item (items db) i with
    | Some r => (Ok r, db)
    | None => (Raise (HttpError 404 (Message "Item not found")), db)
    end.
Proof.
  unfold get_item. unfold_m. rewrite head_fetch_pk.
  by destruct (lookup_item (items db) i).
Qed.

Lemma objects_get_missing db i :
  lookup_item (items db) i = None → objects_get i db = (Raise DoesNotExist, db).
Proof. intros Hi. unfold objects_get. by rewrite Hi. Qed.

Lemma objects_get_found db i r :
  lookup_item (items db) i = Some r → objects_get i db = (Ok r, db).
Proof. intros Hi. unfold objects_get. by rewrite Hi. Qed.

Lemma attachments_get_inv db i k res db' :
  attachments_get i k db = (res, db') → db' = db.
Proof.
  unfold attachments_get. destruct (List.find _ _); by intros [= _ <-].
Qed.

Lemma delete_attachment_raise db i k e db' :
  delete_attachment i k db = (Raise e, db') → db' = db.
Proof.
  unfold delete_attachment, try_except. unfold mbind at 1, M_bind at 1.
  unfold attachments_get. destruct (List.find _ _) as [a|]; simpl.
  - intros [=].
  - by intros [= _ <-].
Qed.

Section Failures.
Context `{Validators Item} `{Validators Attachment}.

(** X1: a write that fails leaves the database exactly as it was: the
    creation and the updates of an item, the reparenting and the upload run
    in [transaction.atomic()] and their handlers only re-raise; the deletion
    of an attachment can only fail before it writes. *)
Theorem failed_writes_roll_back (db db' : DB) (e : exn) :
  (∀ data, create_item data db = (Raise e, db') → db' = db)
  ∧ (∀ i data, update_item i data db = (Raise e, db') → db' = db)
  ∧ (∀ i data, partial_update_item i data db = (Raise e, db') → db' = db)
  ∧ (∀ i data, change_parent i data db = (Raise e, db') → db' = db)
  ∧ (∀ i file, create_attachment i file db = (Raise e, db') → db' = db)
  ∧ (∀ i k, delete_attachment i k db = (Raise e, db') → db' = db).
Proof.
  repeat split; intros.
  - eapply try_atomic_rollback; [apply on_validation_error_reraises | eassumption].
  - eapply try_atomic_rollback; [apply on_missing_or_invalid_reraises | eassumption].
  - eapply try_atomic_rollback; [apply on_missing_or_invalid_reraises | eassumption].
  - eapply try_atomic_rollback; [apply on_does_not_exist_reraises | eassumption].
  - eapply try_atomic_rollback; [apply on_missing_or_invalid_reraises | eassumption].
  - by eapply delete_attachment_raise.
Qed.

(** X3: a request for an item key that no row has is answered 404 "Item
    not found" by every handler that starts from the item, and the database
    is not touched. *)
Theorem unknown_item_not_found (db : DB) (i : Z) :
  lookup_item (items db) i = None →
  let not_found {A} : result A * DB :=
    (Raise (HttpError 404 (Message "Item not found")), db) in
  get_item i db = not_found
  ∧ get_item_tree i db = not_found
  ∧ get_breadcrumb i db = not_found
  ∧ (∀ data, update_item i data db = not_found)
  ∧ (∀ data, partial_update_item i data db = not_found)
  ∧ (∀ data, change_parent i data db = not_found)
  ∧ (∀ file, create_attachment i file db = not_found).
Proof.
  intros Hi not_found. pose proof (objects_get_missing _ _ Hi) as Hget.
  split; [by rewrite get_item_run, Hi|].
  unfold get_item_tree, get_breadcrumb, update_item, partial_update_item, update_with,
    change_parent, create_attachment.
  split; [|split].
  1,2: (rewrite (run_try_Raise _ _ db DoesNotExist db
               (raise (HttpError 404 (Message "Item not found"))));
        [reflexivity | by apply run_bind_Raise | reflexivity]).
  repeat split; intros.
  all: rewrite (run_try_Raise _ _ db DoesNotExist db
                  (raise (HttpError 404 (Message "Item not found"))));
    [reflexivity | | reflexivity].
  all: apply run_atomic_Raise with db; by apply run_bind_Raise.
Qed.

End Failures.

Lemma failed_writes_roll_back_witness :
  (change_parent 1 (mkItemUpdate None None (Some (Some 3))) scenario).2 = scenario.
Proof.
  destruct (failed_writes_roll_back (H := unconstrained) (H0 := unconstrained) scenario
              (change_parent 1 (mkItemUpdate None None (Some (Some 3))) scenario).2
              (HttpError 400 (Message "Circular dependency detected")))
    as (_ & _ & _ & Hmove & _).
  apply (Hmove 1 (mkItemUpdate None None (Some (Some 3)))). reflexivity.
Defined.

Lemma unknown_item_not_found_witness :
  get_item 7 scenario = (Raise (HttpError 404 (Message "Item not found")), scenario).
Proof.
  apply (unknown_item_not_found (H := unconstrained) (H0 := unconstrained) scenario 7).
  reflexivity.
Defined.

Lemma for_each_read_history_db (l : list HistoryRow) db :
  (for_each read_history l db).2 = db.
Proof.
  induction l as [|h l IH]; [done|]. simpl. unfold mbind at 1, M_bind at 1.
  assert ((read_history h db).2 = db) as Hh.
  { unfold read_history. unfold mbind, M_bind.
    destruct (related (h_item h) db) as [[i|e] d1] eqn:E1;
      apply related_inv in E1 as [-> _]; [|done].
    destruct (related (h_old_parent h) db) as [[o|e] d2] eqn:E2;
      apply related_inv in E2 as [-> _]; [|done].
    destruct (related (h_new_parent h) db) as [[n|e] d3] eqn:E3;
      apply related_inv in E3 as [-> _]; done. }
  destruct (read_history h db) as [[o|e] d1]; simpl in Hh; subst d1; [|done].
  unfold mbind, M_bind. destruct (for_each read_history l db) as [[os|e] d2];
    simpl in IH; by subst d2.
Qed.

(** X2: the reading handlers never write: whatever they answer, the
    database they leave is the one they were given.  This includes the flat
    listing, which marks the objects it returns, not the rows. *)
Theorem reads_leave_database_unchanged (db : DB) :
  (∀ i, (get_item i db).2 = db)
  ∧ (∀ i, (get_item_tree i db).2 = db)
  ∧ (∀ i, (get_breadcrumb i db).2 = db)
  ∧ (∀ qr_code name description, (search_items qr_code name description db).2 = db)
  ∧ (∀ hierarchical, (list_items hierarchical db).2 = db)
  ∧ (get_component_history db).2 = db.
Proof.
  repeat split; intros.
  - rewrite get_item_run. by destruct (lookup_item (items db) i).
  - unfold get_item_tree. unfold_m. by destruct (lookup_item (items db) i).
  - unfold get_breadcrumb. unfold_m. by destruct (lookup_item (items db) i).
  - unfold search_items. unfold_m. by destruct (search_filters _ _ _).
  - unfold list_items. unfold_m. by destruct hierarchical.
  - unfold get_component_history. unfold mbind at 1, M_bind at 1, get_db.
    unfold mbind, M_bind.
    pose proof (for_each_read_history_db (merge_sort newest_first (history db)) db) as Hf.
    destruct (for_each read_history _ db) as [[os|e] d1]; simpl in Hf; by subst d1.
Qed.

(** ** Updating an item *)

Lemma lookup_item_map (f : Item → Item) tbl i :
  (∀ r, id (f r) = id r) → lookup_item (map f tbl) i = f <$> lookup_item tbl i.
Proof.
  intros Hf. unfold lookup_item. induction tbl as [|r tbl IH]; [done|].
  simpl. rewrite Hf. by destruct (id r =? i).
Qed.

(** The plain columns [save()] writes for [item]. *)
Lemma write_columns_id item r :
  id (if id r =? id item then with_attrs r (name item) (description item) else r) = id r.
Proof. by destruct (id r =? id item). Qed.

Lemma save_same_parent db item old :
  lookup_item (items db) (id item) = Some old →
  parent_id old = parent_id item →
  save item db
  = (Ok (with_attrs old (name item) (description item)),
     set_items db
       (map (λ r, if id r =? id item
                  then with_attrs r (name item) (description item) else r)
            (items db))).
Proof.
  intros Hold Hpar. unfold save.
  rewrite (run_bind_Ok _ _ db old db) by by apply objects_get_found.
  rewrite decide_True by done.
  rewrite (run_bind_Ok _ _ db tt db) by done.
  rewrite (run_bind_Ok _ _ db db db) by done.
  erewrite run_bind_Ok; [|reflexivity].
  apply objects_get_found. simpl.
  rewrite (lookup_item_map _ _ _ (write_columns_id item)), Hold. simpl.
  apply lookup_item_Some in Hold as [_ Hid]. by rewrite Hid, Z.eqb_refl.
Qed.

Lemma bind_ext {A B} (m : M A) (f g : A → M B) db :
  (∀ a db1, f a db1 = g a db1) → (m ≫= f) db = (m ≫= g) db.
Proof.
  intros Hfg. unfold mbind, M_bind. destruct (m db) as [[a|e] db1]; [apply Hfg|done].
Qed.

Lemma update_with_ext `{Validators Item} (a1 a2 : ItemUpdate → Item → Item) i data db :
  (∀ item, a1 data item = a2 data item) →
  update_with a1 i data db = update_with a2 i data db.
Proof.
  intros Hext. unfold update_with, try_except, atomic.
  erewrite (bind_ext _ _ _ db); [reflexivity|].
  intros item db1. apply bind_ext. intros [] db2. simpl. by rewrite Hext.
Qed.

Lemma update_with_valid `{Validators Item} assign i data db n :
  lookup_item (items db) i = Some n →
  data_parent_id data = None →
  error_dict (assign data n) = ∅ →
  ∀ r db', save (assign data n) db = (Ok r, db') →
           update_with assign i data db = (Ok r, db').
Proof.
  intros Hn Hpid Hclean r db' Hsave. unfold update_with.
  apply run_try_Ok. unfold atomic.
  rewrite (run_bind_Ok _ _ db n db) by by apply objects_get_found.
  rewrite Hpid. rewrite (run_bind_Ok _ _ db tt db) by done.
  rewrite (run_bind_Ok _ _ db tt db).
  - by rewrite Hsave.
  - unfold full_clean. by rewrite decide_True.
Qed.

Lemma with_attrs_same r : with_attrs r (name r) (description r) = r.
Proof. by destruct r. Qed.

Lemma set_items_same db : set_items db (items db) = db.
Proof. by destruct db. Qed.

Lemma write_same_columns tbl n :
  keys_ok tbl → n ∈ tbl →
  map (λ r, if id r =? id n then with_attrs r (name n) (description n) else r) tbl = tbl.
Proof.
  intros Hk Hn. rewrite <- (map_id tbl) at 2. apply map_ext_in.
  intros r Hr. apply list_elem_of_In in Hr.
  destruct (id r =? id n) eqn:E; [|done]. apply Z.eqb_eq in E.
  rewrite <- (keys_inj tbl r n Hk Hr Hn E). apply with_attrs_same.
Qed.

Lemma run_try_pass {A} (body : M A) handler db e db1 :
  body db = (Raise e, db1) → handler e = None → try_except body handler db = (Raise e, db1).
Proof. intros Hb Hh. unfold try_except. by rewrite Hb, Hh. Qed.

Section Updates.
Context `{Validators Item}.

(** X4: when a request sets no field to null, the full update and the
    partial update are the same operation: they answer alike and leave the
    same database. *)
Theorem update_and_partial_update_agree (db : DB) (i : Z) (data : ItemUpdate) :
  u_name data ≠ Some None → u_description data ≠ Some None →
  u_parent_id data ≠ Some None →
  update_item i data db = partial_update_item i data db.
Proof.
  intros Hn Hd Hp. unfold update_item, partial_update_item.
  apply update_with_ext. intros item.
  unfold assign_set_fields, assign_non_null_fields.
  destruct (u_name data) as [[?|]|], (u_description data) as [[?|]|],
    (u_parent_id data) as [[?|]|]; done.
Qed.

(** X5: a partial update whose fields are all unset or null changes
    nothing: the stored row is returned and the database is the same (the
    row passing the model's validation, keys being unique). *)
Theorem partial_update_without_values (db : DB) (i : Z) (n : Item) (data : ItemUpdate) :
  keys_ok (items db) → lookup_item (items db) i = Some n →
  mjoin (u_name data) = None → mjoin (u_description data) = None →
  mjoin (u_parent_id data) = None →
  error_dict n = ∅ →
  partial_update_item i data db = (Ok n, db).
Proof.
  intros Hk Hn Hname Hdesc Hpar Hclean.
  assert (assign_non_null_fields data n = n) as Hassign.
  { unfold assign_non_null_fields. by rewrite Hname, Hdesc, Hpar. }
  pose proof (lookup_item_Some _ _ _ Hn) as [Hin Hid].
  unfold partial_update_item.
  apply (update_with_valid _ _ _ _ n); [done | done | by rewrite Hassign |].
  rewrite Hassign. rewrite (save_same_parent db n n); [| by rewrite Hid | done].
  by rewrite with_attrs_same, write_same_columns, set_items_same.
Qed.

(** X6: an update that does not mention [parent_id] writes the name and
    the description it was given on the row and nothing else: every row
    keeps its key, parent and coordinates, the other rows keep all their
    columns, and the history log is not touched. *)
Theorem update_of_attributes_keeps_tree (db : DB) (i : Z) (n : Item) (data : ItemUpdate) :
  lookup_item (items db) i = Some n →
  u_parent_id data = None →
  error_dict (assign_set_fields data n) = ∅ →
  ∃ r db',
    update_item i data db = (Ok r, db')
    ∧ r = with_attrs n (default (name n) (u_name data))
                       (default (description n) (u_description data))
    ∧ placement <$> items db' = placement <$> items db
    ∧ (∀ x, x ∈ items db → id x ≠ i → x ∈ items db')
    ∧ history db' = history db.
Proof.
  intros Hn Hpar Hclean. pose proof (lookup_item_Some _ _ _ Hn) as [Hin Hid].
  set (item := assign_set_fields data n) in *.
  assert (id item = i ∧ parent_id item = parent_id n
          ∧ name item = default (name n) (u_name data)
          ∧ description item = default (description n) (u_description data))
    as (Hiid & Hipar & Hiname & Hidesc).
  { unfold item, assign_set_fields. rewrite Hpar.
    destruct (u_name data), (u_description data); simpl; by rewrite ?Hid. }
  eexists _, _. split.
  { unfold update_item. apply (update_with_valid _ _ _ _ n); [done| |done|].
    - unfold data_parent_id. by rewrite Hpar.
    - fold item. apply save_same_parent; [by rewrite Hiid | done]. }
  rewrite Hiname, Hidesc. split; [done|]. split; [|split; [|done]].
  - simpl. rewrite <- list_fmap_compose. apply list_fmap_ext.
    intros k x _. simpl. by destruct (id x =? id item).
  - intros x Hx Hne. simpl. apply list_elem_of_fmap. exists x. split; [|done].
    rewrite Hiid. destruct (id x =? i) eqn:E; [|done]. apply Z.eqb_eq in E. done.
Qed.

(** X7: a reparenting or update request that names a parent key no row
    has is answered 404 "Parent item not found" and changes nothing; so is
    a creation under such a key (other than 0, which the handler takes as
    no parent). *)
Theorem unknown_parent_not_found (db : DB) (pid : Z) :
  lookup_item (items db) pid = None →
  let not_found {A} : result A * DB :=
    (Raise (HttpError 404 (Message "Parent item not found")), db) in
  (∀ i n data,
      lookup_item (items db) i = Some n → ref_ok (items db) (parent_id n) →
      data_parent_id data = Some pid →
      change_parent i data db = not_found
      ∧ update_item i data db = not_found
      ∧ partial_update_item i data db = not_found)
  ∧ (∀ data, c_parent_id data = Some pid → pid ≠ 0 → create_item data db = not_found).
Proof.
  intros Hpid not_found.
  assert (∀ n, validate_parent_relationship n pid db
               = (Raise (HttpError 404 (Message "Parent item not found")), db)) as Hv.
  { intros n. destruct (validate_parent_relationship n pid db) as [res db1] eqn:E.
    apply validate_inv in E as [-> E]. rewrite Hpid in E. by subst. }
  split.
  - intros i n data Hn Href Hdata.
    destruct (related_ok db (parent_id n)) as (old & Hold & _).
    { intros p Hp. rewrite Hp in Href. destruct Href as [P HP]. eauto. }
    unfold change_parent, update_item, partial_update_item, update_with.
    repeat split.
    all: unfold try_except, atomic.
    all: rewrite (run_bind_Ok _ _ db n db) by by apply objects_get_found.
    + rewrite (run_bind_Ok _ _ db old db) by done. rewrite Hdata.
      rewrite (run_bind_Raise _ _ db (HttpError 404 (Message "Parent item not found")) db);
        [done|]. by apply run_bind_Raise.
    + rewrite Hdata.
      rewrite (run_bind_Raise _ _ db (HttpError 404 (Message "Parent item not found")) db);
        [done|]. by apply run_bind_Raise.
    + rewrite Hdata.
      rewrite (run_bind_Raise _ _ db (HttpError 404 (Message "Parent item not found")) db);
        [done|]. by apply run_bind_Raise.
  - intros data Hdata Hnz. unfold create_item.
    apply run_try_pass; [|done]. apply run_atomic_Raise with db.
    apply run_bind_Raise. rewrite Hdata. simpl. apply Z.eqb_neq in Hnz. rewrite Hnz. simpl.
    rewrite (run_try_Raise _ _ db DoesNotExist db
               (raise (HttpError 404 (Message "Parent item not found"))));
      [done | | done].
    apply run_bind_Raise. by apply objects_get_missing.
Qed.

End Updates.

Lemma update_and_partial_update_agree_witness :
  update_item (H := named_items) 3 (mkItemUpdate (Some (Some "Bin-9"%string)) None None)
              scenario
  = partial_update_item (H := named_items) 3
      (mkItemUpdate (Some (Some "Bin-9"%string)) None None) scenario.
Proof. by apply update_and_partial_update_agree. Defined.

Lemma partial_update_without_values_witness :
  partial_update_item (H := named_items) 3 (mkItemUpdate (Some None) None None) scenario
  = (Ok bin_1, scenario).
Proof.
  apply partial_update_without_values; try reflexivity. by_computation.
Defined.

Lemma update_of_attributes_keeps_tree_witness :
  ∃ r db',
    update_item (H := named_items) 3
      (mkItemUpdate (Some (Some "Bin-9"%string)) None None) scenario = (Ok r, db')
    ∧ name r = Some "Bin-9"%string
    ∧ placement <$> items db' = placement <$> items scenario.
Proof.
  destruct (update_of_attributes_keeps_tree (H := named_items) scenario 3 bin_1
              (mkItemUpdate (Some (Some "Bin-9"%string)) None None))
    as (r & db' & Hrun & Hr & Hplace & _); [reflexivity..|].
  exists r, db'. split; [exact Hrun|]. split; [by rewrite Hr | exact Hplace].
Defined.

Lemma unknown_parent_not_found_witness :
  change_parent 3 (mkItemUpdate None None (Some (Some 9))) scenario
  = (Raise (HttpError 404 (Message "Parent item not found")), scenario).
Proof.
  destruct (unknown_parent_not_found (H := unconstrained) scenario 9 eq_refl) as [Hmove _].
  apply (Hmove 3 bin_1); [reflexivity | by exists shelf_a | reflexivity].
Defined.

(** ** Reparenting that succeeds *)

Lemma open_gap_id t p w r : id (open_gap t p w r) = id r.
Proof. unfold open_gap. by destruct (tree_id r =? t). Qed.

Lemma close_gap_id t p w r : id (close_gap t p w r) = id r.
Proof. unfold close_gap. by destruct (tree_id r =? t). Qed.

Lemma in_subtree_self n : lft n ≤ rght n → in_subtree n n = true.
Proof. intros Hb. unfold in_subtree. rewrite !andb_true_iff. lia. Qed.

(** What [move_node] does to the moved row: it keeps its key and its plain
    columns and gets the target as parent. *)
Lemma move_node_row tbl n target tbl' :
  move_node tbl n target = Some tbl' → lft n ≤ rght n →
  lookup_item tbl (id n) = Some n →
  ∃ r, lookup_item tbl' (id n) = Some r ∧ id r = id n
       ∧ parent_id r = id <$> target
       ∧ name r = name n ∧ description r = description n.
Proof.
  intros Hmove Hb Hn. pose proof (in_subtree_self n Hb) as Hself.
  unfold move_node in Hmove. destruct target as [p|].
  - destruct ((id p =? id n) || in_subtree n p); [done|]. injection Hmove as <-.
    rewrite lookup_item_map, Hn.
    + simpl. rewrite Hself, Z.eqb_refl. eauto 10.
    + intros r. destruct (in_subtree n r); [|by rewrite open_gap_id, close_gap_id].
      by destruct (id r =? id n).
  - injection Hmove as <-. rewrite lookup_item_map, Hn.
    + simpl. rewrite Hself, Z.eqb_refl. eauto 10.
    + intros r. destruct (in_subtree n r); [|by rewrite close_gap_id].
      by destruct (id r =? id n).
Qed.

(** A target outside the subtree passes the cycle check of the engine. *)
Lemma outside_subtree tbl n p :
  tree_ok tbl → n ∈ tbl → p ∈ tbl → p ≠ n → is_ancestor_of n p = false →
  (id p =? id n) || in_subtree n p = false.
Proof.
  intros Hok Hn Hp Hne Hanc. apply orb_false_iff. split.
  - apply Z.eqb_neq. intros Hid. by apply Hne, (keys_inj tbl); [apply Hok|..].
  - apply not_true_iff_false. intros Hsub. unfold in_subtree in Hsub.
    rewrite !andb_true_iff, Z.eqb_eq, !Z.leb_le in Hsub. destruct Hsub as [[Ht Hlo] Hhi].
    pose proof (row_bounds _ _ Hok Hn). pose proof (row_bounds _ _ Hok Hp).
    assert (is_ancestor_of n p = true); [|congruence].
    apply is_ancestor_of_spec.
    destruct (rows_laminar _ _ _ Hok Hn Hp (eq_sym Ht)) as [?|[?|[?|[?|?]]]];
      unfold encloses in *; [by subst|lia|lia|done|lia].
Qed.

Lemma validate_accepts db n p :
  lookup_item (items db) (id p) = Some p →
  (id p =? id n) || is_ancestor_of n p = false →
  validate_parent_relationship n (id p) db = (Ok p, db).
Proof.
  intros Hp Hcheck. destruct (validate_parent_relationship n (id p) db) as [res db1] eqn:E.
  apply validate_inv in E as [-> E]. rewrite Hp, Hcheck in E. by subst.
Qed.

(** X8: on a well-formed table, a reparenting request for an existing
    item whose target is absent (make it a root) or is an existing row that
    is neither the item nor one of its descendants succeeds: the stored row
    has the requested parent and its own name, and exactly one history
    entry (item, old parent, new parent) is appended. *)
Theorem change_parent_accepts_valid_target (db : DB) (n : Item) (data : ItemUpdate) :
  tree_ok (items db) → n ∈ items db →
  match data_parent_id data with
  | Some pid => ∃ p, p ∈ items db ∧ id p = pid ∧ p ≠ n ∧ is_ancestor_of n p = false
  | None => True
  end →
  ∃ r db',
    change_parent (id n) data db = (Ok r, db')
    ∧ id r = id n ∧ parent_id r = data_parent_id data ∧ name r = name n
    ∧ lookup_item (items db') (id n) = Some r
    ∧ history db'
      = history db ++ [mkHistoryRow (next_id (map h_id (history db))) (Some (id n))
                                    (parent_id n) (data_parent_id data) (clock db)].
Proof.
  intros Hok Hn Htarget.
  pose proof (lookup_item_elem _ _ (proj1 Hok) Hn) as Hgn.
  pose proof (row_bounds _ _ Hok Hn) as Hb.
  destruct (related_ok db (parent_id n)) as (old & Hold & Holdid).
  { intros q Hq. destruct (parent_row _ _ _ Hok Hn Hq) as (P & HP & <- & _).
    exists P. by apply lookup_item_elem; [apply Hok|]. }
  assert (∃ target tbl',
            match data_parent_id data with
            | Some pid => p ← validate_parent_relationship n pid; mret (Some p)
            | None => mret None
            end db = (Ok target, db)
            ∧ id <$> target = data_parent_id data
            ∧ move_node (items db) n target = Some tbl') as (target & tbl' & Hv & Hid & Hmove).
  { destruct (data_parent_id data) as [pid|].
    - destruct Htarget as (p & Hp & <- & Hne & Hanc).
      pose proof (outside_subtree _ _ _ Hok Hn Hp Hne Hanc) as Hout.
      exists (Some p). unfold move_node. rewrite Hout. eexists. split; [|by split].
      rewrite (run_bind_Ok _ _ db p db); [done|]. apply validate_accepts.
      + by apply lookup_item_elem; [apply Hok|].
      + apply orb_false_iff in Hout as [-> _]. by rewrite Hanc.
    - exists None. unfold move_node. eexists. by split. }
  destruct (move_node_row _ _ _ _ Hmove) as (r & Hr & Hrid & Hrpar & Hrname & _);
    [lia | done |].
  exists r. eexists. split.
  { unfold change_parent. apply run_try_Ok. unfold atomic.
    rewrite (run_bind_Ok _ _ db n db) by by apply objects_get_found.
    rewrite (run_bind_Ok _ _ db old db) by done.
    rewrite (run_bind_Ok _ _ db target db) by done.
    rewrite (run_bind_Ok _ _ db tt (set_items db tbl')).
    2:{ unfold move_to. rewrite (run_bind_Ok _ _ db db db) by done. by rewrite Hmove. }
    rewrite (run_bind_Ok _ _ (set_items db tbl') r (set_items db tbl')).
    2:{ unfold refresh_from_db. by apply objects_get_found. }
    unfold mbind, M_bind, history_create, mret, M_ret. reflexivity. }
  simpl. rewrite Hrpar, Hid, Hrid, Holdid. by repeat split.
Qed.

Lemma change_parent_accepts_valid_target_witness :
  ∃ r db', change_parent 3 (mkItemUpdate None None (Some (Some 1))) scenario = (Ok r, db')
           ∧ parent_id r = Some 1
           ∧ length (history db') = 1%nat.
Proof.
  destruct (change_parent_accepts_valid_target scenario bin_1
              (mkItemUpdate None None (Some (Some 1))))
    as (r & db' & Hrun & _ & Hpar & _ & _ & Hhist).
  - by_computation.
  - by_computation.
  - exists warehouse. split; [by_computation|]. by repeat split.
  - exists r, db'. split; [exact Hrun|]. split; [exact Hpar|]. by rewrite Hhist.
Defined.

(** X9: whenever a reparenting request succeeds, the log has grown by
    exactly one entry, which records the item, the parent it had and the
    parent that was requested, and the table is the result of moving that
    row. *)
Theorem successful_reparent_is_logged
    (db db' : DB) (item_id : Z) (data : ItemUpdate) (r : Item) :
  change_parent item_id data db = (Ok r, db') →
  ∃ n, lookup_item (items db) item_id = Some n
       ∧ history db'
         = history db ++ [mkHistoryRow (next_id (map h_id (history db))) (Some item_id)
                                       (parent_id n) (data_parent_id data) (clock db)]
       ∧ attachments db' = attachments db.
Proof.
  intros Hrun.
  assert (attachments db' = attachments db) as Hatt.
  { unfold change_parent in Hrun.
    apply try_Ok_inv in Hrun; [|apply on_does_not_exist_reraises].
    apply atomic_Ok_inv in Hrun.
    apply bind_Ok_inv in Hrun as (n & dba & Hn & Hrun).
    unfold objects_get in Hn. destruct (lookup_item (items db) item_id); [|done].
    injection Hn as -> <-.
    apply bind_Ok_inv in Hrun as (old & dbb & Hold & Hrun).
    apply related_inv in Hold as [-> _].
    apply bind_Ok_inv in Hrun as (target & dbc & Hnew & Hrun).
    assert (dbc = db) as ->.
    { destruct (data_parent_id data) as [pid|]; [|by injection Hnew as _ <-].
      apply bind_Ok_inv in Hnew as (p & db2 & Hv & Hret). injection Hret as _ <-.
      by apply validate_inv in Hv as [-> _]. }
    apply bind_Ok_inv in Hrun as ([] & db1 & Hmove & Hrun).
    unfold move_to, mbind, M_bind, get_db, put_db, raise in Hmove.
    destruct (move_node (items db) n target) as [tbl|]; [|done].
    injection Hmove as <-.
    apply bind_Ok_inv in Hrun as (n' & db2 & Hn' & Hrun).
    unfold refresh_from_db, objects_get in Hn'. simpl in Hn'.
    destruct (lookup_item tbl (id n)); [|done]. injection Hn' as -> <-.
    apply bind_Ok_inv in Hrun as (h & db2 & Hh & Hret).
    injection Hret as _ <-. unfold history_create in Hh. by injection Hh as _ <-. }
  destruct (change_parent_commits _ _ _ _ _ Hrun) as (n & target & Hn & _ & _ & Hh).
  by exists n.
Qed.

Lemma successful_reparent_is_logged_witness :
  ∃ db', history db' = [mkHistoryRow 1 (Some 2) (Some 1) None 0].
Proof.
  destruct (successful_reparent_is_logged scenario
              (change_parent 2 (mkItemUpdate None None None) scenario).2 2
              (mkItemUpdate None None None)
              (mkItem 2 (Some "Shelf-A"%string) None None None 2 1 4 0))
    as (n & Hn & Hh & _).
  - vm_compute. reflexivity.
  - injection Hn as <-. eexists. exact Hh.
Defined.

(** ** Detaching through an update, creating, the log *)

Section Detach.
Context `{Validators Item}.

(** X10: a full update whose [parent_id] is explicitly null makes the item
    a root: no parent check runs, the stored row has no parent and keeps
    its key, and the history log is left as it was. *)
Theorem update_with_null_parent_detaches
    (db : DB) (i : Z) (n : Item) (data : ItemUpdate) :
  tree_ok (items db) → lookup_item (items db) i = Some n →
  u_parent_id data = Some None →
  error_dict (assign_set_fields data n) = ∅ →
  ∃ r db',
    update_item i data db = (Ok r, db')
    ∧ id r = i ∧ parent_id r = None
    ∧ lookup_item (items db') i = Some r
    ∧ history db' = history db.
Proof.
  intros Hok Hn Hpar Hclean. pose proof (lookup_item_Some _ _ _ Hn) as [Hin Hid].
  pose proof (row_bounds _ _ Hok Hin) as Hb.
  set (item := assign_set_fields data n) in *.
  assert (id item = i ∧ parent_id item = None) as [Hiid Hipar].
  { unfold item, assign_set_fields. rewrite Hpar.
    destruct (u_name data), (u_description data); simpl; by rewrite ?Hid. }
  assert (∃ r db', save item db = (Ok r, db') ∧ id r = i ∧ parent_id r = None
                   ∧ lookup_item (items db') i = Some r ∧ history db' = history db)
    as (r & db' & Hsave & Hr).
  { destruct (decide (parent_id n = parent_id item)) as [Hsame|Hdiff].
    - eexists _, _. split; [apply save_same_parent; [by rewrite Hiid | done]|].
      simpl. split; [done|]. split; [congruence|]. split; [|done].
      rewrite (lookup_item_map _ _ _ (write_columns_id item)), Hn. simpl.
      by rewrite Hiid, Hid, Z.eqb_refl.
    - destruct (move_node (items db) n None) as [tbl|] eqn:Hmove; [|done].
      destruct (move_node_row _ _ _ _ Hmove) as (m & Hm & Hmid & Hmpar & _);
        [lia | by rewrite Hid |].
      exists (with_attrs m (name item) (description item)). eexists. split.
      + unfold save.
        rewrite (run_bind_Ok _ _ db n db) by (apply objects_get_found; by rewrite Hiid).
        rewrite decide_False by done. rewrite Hipar.
        rewrite (run_bind_Ok _ _ db tt (set_items db tbl)).
        2:{ rewrite (run_bind_Ok _ _ db None db) by done. unfold move_to.
            rewrite (run_bind_Ok _ _ db db db) by done. by rewrite Hmove. }
        rewrite (run_bind_Ok _ _ _ (set_items db tbl) (set_items db tbl)) by done.
        erewrite run_bind_Ok; [|reflexivity].
        apply objects_get_found. simpl.
        rewrite (lookup_item_map _ _ _ (write_columns_id item)).
        rewrite Hiid, <- Hid, Hm. simpl. by rewrite Hmid, Z.eqb_refl.
      + simpl. split; [congruence|]. split; [done|]. split; [|done].
        rewrite (lookup_item_map _ _ _ (write_columns_id item)).
        rewrite <- Hid, Hm. simpl. by rewrite Hiid, Hmid, Hid, Z.eqb_refl. }
  exists r, db'. split; [|exact Hr].
  unfold update_item, update_with. apply run_try_Ok. unfold atomic.
  rewrite (run_bind_Ok _ _ db n db) by by apply objects_get_found.
  replace (data_parent_id data) with (@None Z) by (unfold data_parent_id; by rewrite Hpar).
  rewrite (run_bind_Ok _ _ db tt db) by done.
  rewrite (run_bind_Ok _ _ db tt db).
  - fold item. by rewrite Hsave.
  - unfold full_clean. by rewrite decide_True.
Qed.

End Detach.

Lemma update_with_null_parent_detaches_witness :
  ∃ r db', update_item (H := unconstrained) 3 (mkItemUpdate None None (Some None)) scenario
           = (Ok r, db')
           ∧ parent_id r = None ∧ history db' = [].
Proof.
  destruct (update_with_null_parent_detaches (H := unconstrained) scenario 3 bin_1
              (mkItemUpdate None None (Some None)))
    as (r & db' & Hrun & _ & Hpar & _ & Hh); [by_computation | reflexivity..|].
  by exists r, db'.
Defined.

Lemma next_id_gt ids i : i ∈ ids → i < next_id ids.
Proof.
  unfold next_id. induction ids as [|j ids IH]; intros Hi.
  - by apply elem_of_nil in Hi.
  - simpl. apply elem_of_cons in Hi as [->|Hi]; [lia|]. specialize (IH Hi). lia.
Qed.

Lemma lookup_item_snoc tbl x i :
  (∀ r, r ∈ tbl → id r ≠ i) → id x = i → lookup_item (tbl ++ [x]) i = Some x.
Proof.
  intros Hfresh Hx. unfold lookup_item. induction tbl as [|r tbl IH]; simpl.
  - by rewrite Hx, Z.eqb_refl.
  - assert (id r ≠ i) as Hr by (apply Hfresh; by left).
    apply Z.eqb_neq in Hr. rewrite Hr. apply IH. intros y Hy. apply Hfresh. by right.
Qed.

Lemma insert_node_shape tbl new tbl' :
  insert_node tbl new = Some tbl' →
  ∃ g new',
    tbl' = map g tbl ++ [new']
    ∧ (∀ r, id (g r) = id r)
    ∧ id new' = id new ∧ name new' = name new ∧ description new' = description new
    ∧ parent_id new' = parent_id new.
Proof.
  unfold insert_node. destruct (parent_id new) as [p|] eqn:Hp.
  - destruct (lookup_item tbl p) as [P|]; [|done]. intros [= <-].
    eexists _, _. split; [reflexivity|]. split; [apply open_gap_id|]. by simpl.
  - intros [= <-]. exists (λ r, r). eexists. rewrite map_id.
    split; [reflexivity|]. split; [done|]. by simpl.
Qed.

Section Creation.
Context `{Validators Item}.

(** X11: a creation whose parent, if one is named, exists and whose fields
    pass validation answers 201 with a row under a key no row had, carrying
    the requested name, description and parent; the row is appended to the
    table, whose other keys are unchanged, [get_item] on its key returns
    it, and the history log is not touched. *)
Theorem create_then_get (db : DB) (data : ItemCreate) :
  match c_parent_id data with
  | Some pid => is_Some (lookup_item (items db) pid)
  | None => True
  end →
  error_dict (new_item data) = ∅ →
  ∃ r db',
    create_item data db = (Ok (201, r), db')
    ∧ (id r ∉ (id <$> items db))
    ∧ name r = Some (c_name data) ∧ description r = c_description data
    ∧ parent_id r = c_parent_id data
    ∧ id <$> items db' = (id <$> items db) ++ [id r]
    ∧ get_item (id r) db' = (Ok r, db')
    ∧ history db' = history db.
Proof.
  intros Hparent Hclean.
  set (new := mkItem (next_id (map id (items db))) (Some (c_name data))
                     (c_description data) None (c_parent_id data) 0 0 0 0).
  assert (∀ r, r ∈ items db → id r ≠ id new) as Hfresh.
  { intros r Hr. assert (id r < id new); [|lia]. simpl.
    apply next_id_gt. change (map id (items db)) with (id <$> items db).
    by apply list_elem_of_fmap_2. }
  destruct (insert_node (items db) new) as [tbl'|] eqn:Hins.
  2:{ exfalso. unfold insert_node in Hins. simpl in Hins.
      destruct (c_parent_id data) as [pid|]; [|done].
      destruct Hparent as [P HP]. by rewrite HP in Hins. }
  destruct (insert_node_shape _ _ _ Hins) as (g & r & -> & Hg & Hid & Hname & Hdesc & Hpar).
  assert (lookup_item (map g (items db) ++ [r]) (id new) = Some r) as Hlook.
  { apply lookup_item_snoc; [|done]. intros x Hx.
    apply list_elem_of_fmap in Hx as (y & -> & Hy). rewrite Hg. by apply Hfresh. }
  exists r. eexists. split.
  { unfold create_item. apply run_try_Ok. unfold atomic.
    rewrite (run_bind_Ok _ _ db tt db).
    2:{ destruct (truthy_int (c_parent_id data)) eqn:Ht; [|done].
        destruct (c_parent_id data) as [pid|]; [|done]. destruct Hparent as [P HP].
        apply run_try_Ok. rewrite (run_bind_Ok _ _ db P db); [done|].
        by apply objects_get_found. }
    rewrite (run_bind_Ok _ _ db tt db).
    2:{ unfold full_clean. by rewrite decide_True. }
    rewrite (run_bind_Ok _ _ db r (set_items db (map g (items db) ++ [r]))); [done|].
    unfold save_new. rewrite (run_bind_Ok _ _ db db db) by done.
    change (mkItem _ _ _ _ _ 0 0 0 0) with new. rewrite Hins.
    erewrite run_bind_Ok; [|reflexivity]. by apply objects_get_found. }
  rewrite <- Hid in Hlook, Hfresh.
  split. { intros Hin. apply list_elem_of_fmap in Hin as (y & Hy & Hyin).
           by apply (Hfresh y Hyin). }
  split; [by rewrite Hname|]. split; [by rewrite Hdesc|]. split; [by rewrite Hpar|].
  split; [|split; [|done]].
  - simpl. rewrite fmap_app. simpl. f_equal.
    rewrite <- list_fmap_compose. apply list_fmap_ext. intros k x _. apply Hg.
  - rewrite get_item_run. simpl. by rewrite Hlook.
Qed.

End Creation.

Lemma create_then_get_witness :
  ∃ r db', create_item (H := named_items) (mkItemCreate "Bin-2" None (Some 2)) scenario
           = (Ok (201, r), db')
           ∧ id r = 4 ∧ get_item 4 db' = (Ok r, db').
Proof.
  destruct (create_then_get (H := named_items) scenario (mkItemCreate "Bin-2" None (Some 2)))
    as (r & db' & Hrun & _ & _ & _ & _ & Hids & Hget & _).
  - by exists shelf_a.
  - by_computation.
  - exists r, db'. split; [exact Hrun|].
    assert (id r = 4) as Hid.
    { vm_compute in Hrun. by injection Hrun as <- _. }
    split; [exact Hid|]. by rewrite <- Hid.
Defined.

(** ** The log only grows *)

Lemma keeps_history_save_new item : keeps_history (save_new item).
Proof.
  intros db. unfold save_new. unfold_m. destruct (insert_node _ _); [|done].
  simpl. by destruct (lookup_item _ _).
Qed.

Lemma keeps_history_create_item `{Validators Item} data : keeps_history (create_item data).
Proof.
  unfold create_item. apply keeps_history_try; [|apply on_validation_error_reraises].
  apply keeps_history_atomic. apply keeps_history_bind.
  - destruct (truthy_int (c_parent_id data)); [|apply keeps_history_ret].
    apply keeps_history_try; [|apply on_does_not_exist_reraises].
    apply keeps_history_bind; [apply keeps_history_get|]. intros; apply keeps_history_ret.
  - intros _. apply keeps_history_bind; [apply keeps_history_full_clean|]. intros _.
    apply keeps_history_bind; [apply keeps_history_save_new|]. intros; apply keeps_history_ret.
Qed.

Lemma keeps_history_create_attachment `{Validators Attachment} i file :
  keeps_history (create_attachment i file).
Proof.
  unfold create_attachment. apply keeps_history_try; [|apply on_missing_or_invalid_reraises].
  apply keeps_history_atomic. apply keeps_history_bind; [apply keeps_history_get|].
  intros item. apply keeps_history_bind.
  { destruct (negb _); [apply keeps_history_raise | apply keeps_history_ret]. }
  intros _. apply keeps_history_bind.
  { destruct (size file >? _); [apply keeps_history_raise | apply keeps_history_ret]. }
  intros _. apply keeps_history_bind; [apply keeps_history_full_clean|]. intros _.
  apply keeps_history_bind; [done|]. intros; apply keeps_history_ret.
Qed.

Lemma keeps_history_delete_attachment i k : keeps_history (delete_attachment i k).
Proof.
  unfold delete_attachment. apply keeps_history_try; [|apply on_does_not_exist_reraises].
  apply keeps_history_bind.
  - intros db. unfold attachments_get. by destruct (List.find _ _).
  - intros a. apply keeps_history_bind; [done|]. intros; apply keeps_history_ret.
Qed.

Section AppendOnly.
Context `{Validators Item} `{Validators Attachment}.

(** X12: no handler of the item tables removes or rewrites a history
    entry: after any creation, update, reparenting, upload or attachment
    deletion, whether it succeeds or fails, the old log is a prefix of the
    new one; only the reparenting ever adds to it. *)
Theorem history_is_append_only (db : DB) :
  (∀ data, history (create_item data db).2 = history db)
  ∧ (∀ i data, history (update_item i data db).2 = history db)
  ∧ (∀ i data, history (partial_update_item i data db).2 = history db)
  ∧ (∀ i file, history (create_attachment i file db).2 = history db)
  ∧ (∀ i k, history (delete_attachment i k db).2 = history db)
  ∧ (∀ i data, history db `prefix_of` history (change_parent i data db).2).
Proof.
  split; [intros; apply keeps_history_create_item|].
  split; [intros; apply keeps_history_update|].
  split; [intros; apply keeps_history_update|].
  split; [intros; apply keeps_history_create_attachment|].
  split; [intros; apply keeps_history_delete_attachment|].
  intros i data. destruct (change_parent i data db) as [[r|e] db'] eqn:Hrun; simpl.
  - destruct (change_parent_commits _ _ _ _ _ Hrun) as (n & t & _ & _ & _ & ->).
    by apply prefix_app_r.
  - by rewrite (change_parent_rolls_back _ _ _ _ _ Hrun).
Qed.

End AppendOnly.

(** ** Attachments: upload, listing, deletion *)

Lemma find_snoc {A} (f : A → bool) (l : list A) (x : A) :
  Forall (λ y, f y = false) l → f x = true → List.find f (l ++ [x]) = Some x.
Proof.
  intros Hl Hx. induction Hl as [|y l Hy Hl IH]; simpl; [by rewrite Hx|].
  by rewrite Hy.
Qed.

Lemma filter_snoc_out {A} (f : A → bool) (l : list A) (x : A) :
  Forall (λ y, f y = true) l → f x = false → List.filter f (l ++ [x]) = l.
Proof.
  intros Hl Hx. induction Hl as [|y l Hy Hl IH]; simpl; [by rewrite Hx|].
  by rewrite Hy, IH.
Qed.

Lemma mkDB_same db : mkDB (items db) (history db) (attachments db) (clock db) = db.
Proof. by destruct db. Qed.

Section Uploads.
Context `{Validators Attachment}.

(** X13: an accepted upload followed by the deletion of the attachment it
    returned, under the same item, gives back the database the upload
    started from; in between, the attachment is among those listed for the
    item. *)
Theorem upload_then_delete_restores
    (db : DB) (i : Z) (item : Item) (file : UploadedFile) :
  lookup_item (items db) i = Some item →
  startswith (content_type file) ["image/"; "application/"; "text/"] = true →
  size file ≤ 10 * 1024 * 1024 →
  error_dict (mkAttachment 0 (id item) (file_name file) (content_type file)) = ∅ →
  ∃ a db',
    create_attachment i file db = (Ok (201, a), db')
    ∧ a ∈ resolve_attachments db' (load item)
    ∧ delete_attachment i (a_id a) db' = (Ok (204, tt), db).
Proof.
  intros Hitem Hty Hsz Hclean. pose proof (lookup_item_Some _ _ _ Hitem) as [_ Hid].
  set (a := mkAttachment (next_id (map a_id (attachments db))) (id item)
                         (file_name file) (content_type file)).
  assert (Forall (λ x, a_id x ≠ a_id a) (attachments db)) as Hfresh.
  { apply Forall_forall. intros x Hx. assert (a_id x < a_id a); [|lia].
    apply next_id_gt. change (map a_id (attachments db)) with (a_id <$> attachments db).
    by apply list_elem_of_fmap_2. }
  exists a. eexists. split; [|split].
  - unfold create_attachment. apply run_try_Ok. unfold atomic.
    rewrite (run_bind_Ok _ _ db item db) by by apply objects_get_found.
    rewrite Hty. simpl negb. cbv iota.
    rewrite (run_bind_Ok _ _ db tt db) by done.
    destruct (size file >? 10 * 1024 * 1024) eqn:E; [lia|].
    rewrite (run_bind_Ok _ _ db tt db) by done.
    rewrite (run_bind_Ok _ _ db tt db).
    2:{ unfold full_clean. by rewrite decide_True. }
    unfold mbind, M_bind, save_attachment, mret, M_ret. reflexivity.
  - unfold resolve_attachments. simpl. apply list_elem_of_In, filter_In. split.
    + apply in_or_app. right. by left.
    + simpl. apply Z.eqb_refl.
  - unfold delete_attachment. apply run_try_Ok.
    erewrite run_bind_Ok.
    2:{ unfold attachments_get. simpl. rewrite (find_snoc _ _ a); [reflexivity| |].
        - eapply Forall_impl; [exact Hfresh|]. intros x Hx. simpl in Hx.
          apply andb_false_iff. right. by apply Z.eqb_neq.
        - simpl. by rewrite Hid, !Z.eqb_refl. }
    unfold mbind, M_bind, attachment_delete, mret, M_ret. simpl.
    rewrite filter_snoc_out.
    + by rewrite mkDB_same.
    + eapply Forall_impl; [exact Hfresh|]. intros x Hx. simpl in Hx.
      apply negb_true_iff. by apply Z.eqb_neq.
    + simpl. by rewrite Z.eqb_refl.
Qed.

End Uploads.

Lemma upload_then_delete_restores_witness :
  ∃ a db', create_attachment (H := unconstrained) 2
             (mkUploadedFile "label.png" "image/png" 2048) scenario = (Ok (201, a), db')
           ∧ delete_attachment 2 (a_id a) db' = (Ok (204, tt), scenario).
Proof.
  destruct (upload_then_delete_restores (H := unconstrained) scenario 2 shelf_a
              (mkUploadedFile "label.png" "image/png" 2048))
    as (a & db' & Hup & _ & Hdel); [reflexivity | reflexivity | simpl; lia | reflexivity |].
  by exists a, db'.
Defined.

(** X14: deleting an attachment touches nothing but the attachment rows
    with the requested key: when no attachment of that item has the key (it
    does not exist, or belongs to another item) the answer is 404
    "Attachment not found" and the database is unchanged; otherwise the
    answer is 204, the rows with that key are gone, and every other
    attachment, the items and the log are as before. *)
Theorem delete_attachment_is_scoped (db : DB) (i k : Z) :
  ((∀ a, a ∈ attachments db → a_id a = k → a_item a ≠ i) →
   delete_attachment i k db
   = (Raise (HttpError 404 (Message "Attachment not found")), db))
  ∧ (∀ a, a ∈ attachments db → a_item a = i → a_id a = k →
     ∃ db', delete_attachment i k db = (Ok (204, tt), db')
            ∧ items db' = items db ∧ history db' = history db
            ∧ ∀ x, x ∈ attachments db' ↔ x ∈ attachments db ∧ a_id x ≠ k).
Proof.
  split.
  - intros Hnone. unfold delete_attachment.
    rewrite (run_try_Raise _ _ db DoesNotExist db
               (raise (HttpError 404 (Message "Attachment not found"))));
      [done | | done].
    apply run_bind_Raise. unfold attachments_get.
    destruct (List.find _ (attachments db)) as [a|] eqn:E; [|done].
    apply find_some in E as [Hin Hmatch]. apply list_elem_of_In in Hin.
    apply andb_true_iff in Hmatch as [Hi Hk]. apply Z.eqb_eq in Hi, Hk.
    by destruct (Hnone a Hin Hk).
  - intros a Ha Hi Hk. unfold delete_attachment.
    destruct (List.find (λ a, (a_item a =? i) && (a_id a =? k)) (attachments db))
      as [b|] eqn:E.
    2:{ exfalso. apply list_elem_of_In in Ha.
        pose proof (find_none _ _ E a Ha) as Hno. simpl in Hno.
        by rewrite Hi, Hk, !Z.eqb_refl in Hno. }
    apply find_some in E as Hb. destruct Hb as [_ Hb].
    apply andb_true_iff in Hb as [_ Hbk]. apply Z.eqb_eq in Hbk.
    eexists. split.
    { apply run_try_Ok. erewrite run_bind_Ok.
      2:{ unfold attachments_get. by rewrite E. }
      unfold mbind, M_bind, attachment_delete, mret, M_ret. reflexivity. }
    simpl. split; [done|]. split; [done|]. intros x.
    rewrite !list_elem_of_In, filter_In, Hbk, negb_true_iff, Z.eqb_neq. tauto.
Qed.

Lemma delete_attachment_is_scoped_witness :
  delete_attachment 1 1 (mkDB (items scenario) [] [mkAttachment 1 2 "label.png" "image/png"] 0)
  = (Raise (HttpError 404 (Message "Attachment not found")),
     mkDB (items scenario) [] [mkAttachment 1 2 "label.png" "image/png"] 0).
Proof.
  apply delete_attachment_is_scoped. intros a Ha Hk.
  apply list_elem_of_singleton in Ha. by subst a.
Defined.

(** ** Search results *)

Lemma no_filters_no_hit qr_code name description r :
  search_filters qr_code name description = [] →
  direct_hit qr_code name description r = false.
Proof.
  unfold search_filters, direct_hit.
  by destruct (truthy qr_code), (truthy name), (truthy description).
Qed.

Lemma some_filter_some_truthy qr_code name description q qs :
  search_filters qr_code name description = q :: qs →
  truthy qr_code || truthy name || truthy description = true.
Proof.
  unfold search_filters.
  by destruct (truthy qr_code), (truthy name), (truthy description).
Qed.

Lemma search_items_elem db db' qr_code name description res :
  search_items qr_code name description db = (Ok res, db') →
  ∀ x, x ∈ res ↔
       x ∈ items db
       ∧ ∃ hit, hit ∈ items db ∧ direct_hit qr_code name description hit = true
                ∧ (id x = id hit ∨ descendant_filter hit x = true).
Proof.
  unfold search_items. unfold_m.
  destruct (search_filters qr_code name description) as [|q0 qs] eqn:Hf.
  - rewrite fetch_none. intros [= <- _] x. split; [by intros ?%elem_of_nil|].
    intros (_ & hit & _ & Hhit & _). by rewrite no_filters_no_hit in Hhit.
  - pose proof (some_filter_some_truthy _ _ _ _ _ Hf) as Hsome. rewrite <- Hf.
    intros [= <- _] x. rewrite elem_of_remove_dups, fetch_elem.
    rewrite (fold_or_existsb (λ item, q_or (q_pk (id item)) (descendant_filter item))).
    unfold objects_none; simpl. rewrite existsb_exists.
    split; intros [Hx (hit & Hhit & Hq)]; (split; [done|]); exists hit.
    + apply list_elem_of_In, fetch_elem in Hhit as [Hhit Hd].
      rewrite reduce_or_direct_hit in Hd by done. split; [done|]. split; [done|].
      unfold q_or, q_pk in Hq. rewrite orb_true_iff, Z.eqb_eq in Hq. tauto.
    + destruct Hq as [Hd Hq]. split.
      * apply list_elem_of_In, fetch_elem. by rewrite reduce_or_direct_hit.
      * unfold q_or, q_pk. rewrite orb_true_iff, Z.eqb_eq. tauto.
Qed.

(** X15: a search result holds rows of the table only, holds every row
    that a supplied predicate matches directly, and is closed downwards:
    with a row it holds every row of the same tree whose interval lies
    strictly inside that row's. *)
Theorem search_result_is_closed
    (db db' : DB) (qr_code name description : option string) (res : list Item) :
  keys_ok (items db) →
  search_items qr_code name description db = (Ok res, db') →
  (∀ x, x ∈ res → x ∈ items db)
  ∧ (∀ x, x ∈ items db → direct_hit qr_code name description x = true → x ∈ res)
  ∧ (∀ x y, x ∈ res → y ∈ items db → descendant_filter x y = true → y ∈ res).
Proof.
  intros Hk Hrun. pose proof (search_items_elem _ _ _ _ _ _ Hrun) as Hmem.
  split; [|split].
  - intros x Hx. by apply Hmem in Hx as [? _].
  - intros x Hx Hd. apply Hmem. split; [done|]. exists x. by auto.
  - intros x y Hx Hy Hxy. apply Hmem in Hx as (Hx & hit & Hhit & Hd & Hrel).
    apply Hmem. split; [done|]. exists hit. split; [done|]. split; [done|]. right.
    destruct Hrel as [Hid|Hin].
    + by rewrite <- (keys_inj _ _ _ Hk Hx Hhit Hid).
    + unfold descendant_filter in *.
      rewrite !andb_true_iff, Z.eqb_eq, !Z.ltb_lt in *. lia.
Qed.

Lemma search_result_is_closed_witness :
  search_items None (Some "ware"%string) None scenario
  = (Ok [warehouse; shelf_a; bin_1], scenario)
  ∧ bin_1 ∈ [warehouse; shelf_a; bin_1].
Proof.
  split; [reflexivity|].
  destruct (search_result_is_closed scenario scenario None (Some "ware"%string) None
              [warehouse; shelf_a; bin_1])
    as (_ & Hhit & Hclosed); [by_computation | reflexivity |].
  apply (Hclosed warehouse); [|by_computation|reflexivity].
  apply Hhit; [by_computation|reflexivity].
Defined.

Lemma lowercase_empty s : lowercase s = ""%string → s = ""%string.
Proof. by destruct s. Qed.

Lemma truthy_lowercase (a b : option string) :
  lowercase <$> a = lowercase <$> b → truthy a = truthy b.
Proof.
  destruct a as [s|], b as [t|]; try done. simpl. intros [= Hst].
  destruct s, t; try done.
Qed.

Lemma icontains_lowercase col (a b : option string) :
  lowercase <$> a = lowercase <$> b →
  icontains col (default ""%string a) = icontains col (default ""%string b).
Proof.
  destruct a as [s|], b as [t|]; try done. simpl. intros [= Hst].
  unfold icontains. by rewrite Hst.
Qed.

Lemma fetch_ext tbl (q1 q2 : Q) : (∀ r, q1 r = q2 r) → fetch tbl q1 = fetch tbl q2.
Proof.
  intros Hq. unfold fetch. induction tbl as [|r tbl IH]; [done|].
  simpl. by rewrite Hq, IH.
Qed.

(** X16: the name and description predicates ignore letter case: two
    requests whose names, and whose descriptions, differ only by the case
    of ASCII letters get the same answer. *)
Theorem search_ignores_case
    (db : DB) (qr_code name1 name2 description1 description2 : option string) :
  lowercase <$> name1 = lowercase <$> name2 →
  lowercase <$> description1 = lowercase <$> description2 →
  search_items qr_code name1 description1 db = search_items qr_code name2 description2 db.
Proof.
  intros Hn Hd.
  pose proof (truthy_lowercase _ _ Hn) as Htn. pose proof (truthy_lowercase _ _ Hd) as Htd.
  assert (∀ r, reduce_or (search_filters qr_code name1 description1) r
               = reduce_or (search_filters qr_code name2 description2) r) as Hred.
  { intros r. unfold search_filters. rewrite Htn, Htd.
    unfold q_name_icontains, q_description_icontains.
    destruct (truthy qr_code), (truthy name2), (truthy description2); simpl;
      unfold q_or, q_name_icontains, q_description_icontains;
      rewrite ?(icontains_lowercase (name r) _ _ Hn),
              ?(icontains_lowercase (description r) _ _ Hd); reflexivity. }
  unfold search_items. unfold_m.
  rewrite (fetch_ext _ _ _ Hred).
  unfold search_filters. rewrite Htn, Htd.
  by destruct (truthy qr_code), (truthy name2), (truthy description2).
Qed.

Lemma search_ignores_case_witness :
  search_items None (Some "SHELF"%string) None scenario
  = search_items None (Some "shelf"%string) None scenario.
Proof. by apply search_ignores_case. Defined.

(** ** Listing the history *)






(** ** Notes and emails *)

Lemma run_bind_Ok_s {A B} (m : MS A) (f : A → MS B) s a s1 :
  m s = (Ok a, s1) → (m ≫= f) s = f a s1.
Proof. intros Hm. unfold mbind, MS_bind. by rewrite Hm. Qed.

Lemma run_bind_Raise_s {A B} (m : MS A) (f : A → MS B) s e s1 :
  m s = (Raise e, s1) → (m ≫= f) s = (Raise e, s1).
Proof. intros Hm. unfold mbind, MS_bind. by rewrite Hm. Qed.

Lemma run_try_Ok_s {A} (body : MS A) handler s a s1 :
  body s = (Ok a, s1) → try_except_s body handler s = (Ok a, s1).
Proof. intros Hb. unfold try_except_s. by rewrite Hb. Qed.

Lemma run_try_Raise_s {A} (body : MS A) handler s e s1 h :
  body s = (Raise e, s1) → handler e = Some h → try_except_s body handler s = h s1.
Proof. intros Hb Hh. unfold try_except_s. by rewrite Hb, Hh. Qed.

Lemma run_atomic_Raise_s {A} (body : MS A) s e s1 :
  body s = (Raise e, s1) → atomic_s body s = (Raise e, s).
Proof. intros Hb. unfold atomic_s. by rewrite Hb. Qed.

Lemma run_atomic_Ok_s {A} (body : MS A) s a s1 :
  body s = (Ok a, s1) → atomic_s body s = (Ok a, s1).
Proof. intros Hb. unfold atomic_s. by rewrite Hb. Qed.

Lemma mkSite_same s : mkSite (site_db s) (notes s) (emails s) = s.
Proof. by destruct s. Qed.

Lemma lift_run {A} (m : M A) s r :
  m (site_db s) = (r, site_db s) → lift m s = (r, s).
Proof. intros Hm. unfold lift. by rewrite Hm, mkSite_same. Qed.

Section Records.
Context `{Validators Note} `{Validators Email}.

(** X18: a note or an email can only be added to an existing item and
    only when the model accepts it: for an item key that no row has the
    answer is 404 "Item not found", for a record that fails validation it
    is 400 with the validation dictionary, and in both cases nothing is
    stored. *)
Theorem child_records_need_item_and_validity (s : Site) (i : Z) :
  (lookup_item (items (site_db s)) i = None →
   (∀ data, create_note i data s
            = (Raise (HttpError 404 (Message "Item not found")), s))
   ∧ (∀ data, create_email i data s
              = (Raise (HttpError 404 (Message "Item not found")), s)))
  ∧ (∀ item, lookup_item (items (site_db s)) i = Some item →
     (∀ data,
        let note := mkNote 0 (id item) (nc_content data)
                           (default "System"%string (nc_author data)) in
        error_dict note ≠ ∅ →
        create_note i data s
        = (Raise (HttpError 400 (FieldErrors (error_dict note))), s))
     ∧ (∀ data,
        let email := mkEmail 0 (id item) (ec_subject data) (ec_content data) in
        error_dict email ≠ ∅ →
        create_email i data s
        = (Raise (HttpError 400 (FieldErrors (error_dict email))), s))).
Proof.
  split.
  - intros Hi. split; intros data.
    all: unfold create_note, create_email.
    all: rewrite (run_try_Raise_s _ _ s DoesNotExist s
                    (raise_s (HttpError 404 (Message "Item not found"))));
      [done | | done].
    all: apply run_atomic_Raise_s with s; apply run_bind_Raise_s.
    all: apply lift_run; by apply objects_get_missing.
  - intros item Hitem. split; intros data rec Hbad.
    + unfold create_note.
      rewrite (run_try_Raise_s _ _ s (ValidationError (error_dict rec)) s
                 (raise_s (HttpError 400 (FieldErrors (error_dict rec)))));
        [done | | done].
      apply run_atomic_Raise_s with s.
      rewrite (run_bind_Ok_s _ _ s item s)
        by (apply lift_run; by apply objects_get_found).
      apply run_bind_Raise_s, lift_run. by apply full_clean_invalid.
    + unfold create_email.
      rewrite (run_try_Raise_s _ _ s (ValidationError (error_dict rec)) s
                 (raise_s (HttpError 400 (FieldErrors (error_dict rec)))));
        [done | | done].
      apply run_atomic_Raise_s with s.
      rewrite (run_bind_Ok_s _ _ s item s)
        by (apply lift_run; by apply objects_get_found).
      apply run_bind_Raise_s, lift_run. by apply full_clean_invalid.
Qed.

(** X19: an accepted note is stored under the item with the content of
    the request and the author "System" unless the request names one; it is
    then among the notes listed for the item, and deleting it under the
    same item gives back the database the creation started from. *)
Theorem note_created_then_deleted (s : Site) (i : Z) (item : Item) (data : NoteCreate) :
  lookup_item (items (site_db s)) i = Some item →
  error_dict (mkNote 0 (id item) (nc_content data)
                     (default "System"%string (nc_author data))) = ∅ →
  ∃ n s',
    create_note i data s = (Ok (201, n), s')
    ∧ n_item n = i ∧ n_content n = nc_content data
    ∧ n_author n = default "System"%string (nc_author data)
    ∧ n ∈ resolve_notes s' (load item)
    ∧ delete_note i (n_id n) s' = (Ok (204, tt), s).
Proof.
  intros Hitem Hclean. pose proof (lookup_item_Some _ _ _ Hitem) as [_ Hid].
  set (n := mkNote (next_id (map n_id (notes s))) (id item) (nc_content data)
                   (default "System"%string (nc_author data))).
  assert (Forall (λ x, n_id x ≠ n_id n) (notes s)) as Hfresh.
  { apply Forall_forall. intros x Hx. assert (n_id x < n_id n); [|lia].
    apply next_id_gt. change (map n_id (notes s)) with (n_id <$> notes s).
    by apply list_elem_of_fmap_2. }
  exists n. eexists. split; [|repeat split; try done].
  - unfold create_note. apply run_try_Ok_s. eapply run_atomic_Ok_s.
    rewrite (run_bind_Ok_s _ _ s item s)
      by (apply lift_run; by apply objects_get_found).
    rewrite (run_bind_Ok_s _ _ s tt s).
    2:{ apply lift_run. unfold full_clean. by rewrite decide_True. }
    unfold mbind, MS_bind, save_note, mret, MS_ret. reflexivity.
  - unfold resolve_notes. simpl. apply list_elem_of_In, filter_In. split.
    + apply in_or_app. right. by left.
    + simpl. apply Z.eqb_refl.
  - unfold delete_note. apply run_try_Ok_s.
    erewrite run_bind_Ok_s.
    2:{ unfold notes_get. simpl. rewrite (find_snoc _ _ n); [reflexivity| |].
        - eapply Forall_impl; [exact Hfresh|]. intros x Hx. simpl in Hx.
          apply andb_false_iff. right. by apply Z.eqb_neq.
        - simpl. by rewrite Hid, !Z.eqb_refl. }
    unfold mbind, MS_bind, note_delete, mret, MS_ret. simpl.
    rewrite filter_snoc_out.
    + by rewrite mkSite_same.
    + eapply Forall_impl; [exact Hfresh|]. intros x Hx. simpl in Hx.
      apply negb_true_iff. by apply Z.eqb_neq.
    + simpl. by rewrite Z.eqb_refl.
Qed.

(** X20: an accepted email is stored under the item with the subject and
    the content of the request; it is then among the emails listed for the
    item, and deleting it under the same item gives back the database the
    creation started from. *)
Theorem email_created_then_deleted (s : Site) (i : Z) (item : Item) (data : EmailCreate) :
  lookup_item (items (site_db s)) i = Some item →
  error_dict (mkEmail 0 (id item) (ec_subject data) (ec_content data)) = ∅ →
  ∃ e s',
    create_email i data s = (Ok (201, e), s')
    ∧ e_item e = i ∧ e_subject e = ec_subject data ∧ e_content e = ec_content data
    ∧ e ∈ resolve_emails s' (load item)
    ∧ delete_email i (e_id e) s' = (Ok (204, tt), s).
Proof.
  intros Hitem Hclean. pose proof (lookup_item_Some _ _ _ Hitem) as [_ Hid].
  set (e := mkEmail (next_id (map e_id (emails s))) (id item) (ec_subject data)
                    (ec_content data)).
  assert (Forall (λ x, e_id x ≠ e_id e) (emails s)) as Hfresh.
  { apply Forall_forall. intros x Hx. assert (e_id x < e_id e); [|lia].
    apply next_id_gt. change (map e_id (emails s)) with (e_id <$> emails s).
    by apply list_elem_of_fmap_2. }
  exists e. eexists. split; [|repeat split; try done].
  - unfold create_email. apply run_try_Ok_s. eapply run_atomic_Ok_s.
    rewrite (run_bind_Ok_s _ _ s item s)
      by (apply lift_run; by apply objects_get_found).
    rewrite (run_bind_Ok_s _ _ s tt s).
    2:{ apply lift_run. unfold full_clean. by rewrite decide_True. }
    unfold mbind, MS_bind, save_email, mret, MS_ret. reflexivity.
  - unfold resolve_emails. simpl. apply list_elem_of_In, filter_In. split.
    + apply in_or_app. right. by left.
    + simpl. apply Z.eqb_refl.
  - unfold delete_email. apply run_try_Ok_s.
    erewrite run_bind_Ok_s.
    2:{ unfold emails_get. simpl. rewrite (find_snoc _ _ e); [reflexivity| |].
        - eapply Forall_impl; [exact Hfresh|]. intros x Hx. simpl in Hx.
          apply andb_false_iff. right. by apply Z.eqb_neq.
        - simpl. by rewrite Hid, !Z.eqb_refl. }
    unfold mbind, MS_bind, email_delete, mret, MS_ret. simpl.
    rewrite filter_snoc_out.
    + by rewrite mkSite_same.
    + eapply Forall_impl; [exact Hfresh|]. intros x Hx. simpl in Hx.
      apply negb_true_iff. by apply Z.eqb_neq.
    + simpl. by rewrite Z.eqb_refl.
Qed.

End Records.

(** X21: a note or an email is deleted only through the item it belongs
    to: when no note (no email) of the item named in the request has the
    requested key, the answer is 404 and the database is unchanged, also
    when a record with that key exists under another item. *)
Theorem child_record_deletion_is_scoped (s : Site) (i k : Z) :
  ((∀ n, n ∈ notes s → n_id n = k → n_item n ≠ i) →
   delete_note i k s = (Raise (HttpError 404 (Message "Note not found")), s))
  ∧ ((∀ e, e ∈ emails s → e_id e = k → e_item e ≠ i) →
     delete_email i k s = (Raise (HttpError 404 (Message "Email not found")), s)).
Proof.
  split; intros Hnone.
  - unfold delete_note.
    rewrite (run_try_Raise_s _ _ s DoesNotExist s
               (raise_s (HttpError 404 (Message "Note not found")))); [done | | done].
    apply run_bind_Raise_s. unfold notes_get.
    destruct (List.find _ (notes s)) as [n|] eqn:E; [|done].
    apply find_some in E as [Hin Hmatch]. apply list_elem_of_In in Hin.
    apply andb_true_iff in Hmatch as [Hi Hk]. apply Z.eqb_eq in Hi, Hk.
    by destruct (Hnone n Hin Hk).
  - unfold delete_email.
    rewrite (run_try_Raise_s _ _ s DoesNotExist s
               (raise_s (HttpError 404 (Message "Email not found")))); [done | | done].
    apply run_bind_Raise_s. unfold emails_get.
    destruct (List.find _ (emails s)) as [e|] eqn:E; [|done].
    apply find_some in E as [Hin Hmatch]. apply list_elem_of_In in Hin.
    apply andb_true_iff in Hmatch as [Hi Hk]. apply Z.eqb_eq in Hi, Hk.
    by destruct (Hnone e Hin Hk).
Qed.

Lemma child_records_need_item_and_validity_witness :
  create_note (H := unconstrained) 7 (mkNoteCreate "checked" None)
              (mkSite scenario [] [])
  = (Raise (HttpError 404 (Message "Item not found")), mkSite scenario [] []).
Proof.
  destruct (child_records_need_item_and_validity (H := unconstrained) (H0 := unconstrained)
              (mkSite scenario [] []) 7) as [Hmissing _].
  by apply Hmissing.
Defined.

Lemma note_created_then_deleted_witness :
  ∃ n s', create_note (H := unconstrained) 2 (mkNoteCreate "checked" None)
            (mkSite scenario [] []) = (Ok (201, n), s')
          ∧ n_author n = "System"%string
          ∧ delete_note 2 (n_id n) s' = (Ok (204, tt), mkSite scenario [] []).
Proof.
  destruct (note_created_then_deleted (H := unconstrained) (mkSite scenario [] []) 2 shelf_a
              (mkNoteCreate "checked" None))
    as (n & s' & Hrun & _ & _ & Hauthor & _ & Hdel); [reflexivity..|].
  by exists n, s'.
Defined.

Lemma email_created_then_deleted_witness :
  ∃ e s', create_email (H := unconstrained) 2 (mkEmailCreate "Order" "two bins")
            (mkSite scenario [] []) = (Ok (201, e), s')
          ∧ delete_email 2 (e_id e) s' = (Ok (204, tt), mkSite scenario [] []).
Proof.
  destruct (email_created_then_deleted (H0 := unconstrained) (mkSite scenario [] []) 2 shelf_a
              (mkEmailCreate "Order" "two bins"))
    as (e & s' & Hrun & _ & _ & _ & _ & Hdel); [reflexivity..|].
  by exists e, s'.
Defined.

Lemma child_record_deletion_is_scoped_witness :
  delete_note 1 1 (mkSite scenario [mkNote 1 2 "checked" "System"] [])
  = (Raise (HttpError 404 (Message "Note not found")),
     mkSite scenario [mkNote 1 2 "checked" "System"] []).
Proof.
  apply child_record_deletion_is_scoped. intros n Hn Hk.
  apply list_elem_of_singleton in Hn. by subst n.
Defined.

(** ** Deleting an item *)

Lemma lookup_item_is_Some tbl j :
  is_Some (lookup_item tbl j) ↔ ∃ r, r ∈ tbl ∧ id r = j.
Proof.
  split.
  - intros [r Hr]. apply lookup_item_Some in Hr. eauto.
  - intros (r & Hr & Hid). unfold lookup_item.
    destruct (List.find (λ r, id r =? j) tbl) as [x|] eqn:E; [by eexists|].
    apply list_elem_of_In in Hr. pose proof (find_none _ _ E r Hr) as Hno.
    simpl in Hno. apply Z.eqb_neq in Hno. done.
Qed.

Lemma lookup_item_None tbl j :
  lookup_item tbl j = None ↔ ∀ r, r ∈ tbl → id r ≠ j.
Proof.
  rewrite eq_None_not_Some, lookup_item_is_Some. split.
  - intros Hno r Hr Hid. apply Hno. eauto.
  - intros Hall (r & Hr & Hid). by apply (Hall r).
Qed.

Lemma doomed_spec tbl n i :
  doomed tbl n i = true ↔ ∃ r, r ∈ tbl ∧ in_subtree n r = true ∧ id r = i.
Proof.
  unfold doomed. rewrite existsb_exists. split.
  - intros (r & Hr & Hm). apply andb_true_iff in Hm as [Hs Hi]. apply Z.eqb_eq in Hi.
    exists r. by rewrite <- list_elem_of_In in Hr.
  - intros (r & Hr & Hs & Hi). exists r. rewrite <- list_elem_of_In.
    split; [done|]. rewrite Hs. simpl. by apply Z.eqb_eq.
Qed.

(** The rows of the table once [n]'s subtree is gone. *)
Lemma survivors_elem tbl n y :
  y ∈ map (close_gap (tree_id n) (rght n) (rght n - lft n + 1))
          (List.filter (λ r, negb (in_subtree n r)) tbl)
  ↔ ∃ x, x ∈ tbl ∧ in_subtree n x = false
         ∧ y = close_gap (tree_id n) (rght n) (rght n - lft n + 1) x.
Proof.
  change (map ?f ?l) with (f <$> l). rewrite list_elem_of_fmap. split.
  - intros (x & -> & Hx). apply list_elem_of_In, filter_In in Hx as [Hx Hs].
    exists x. rewrite <- list_elem_of_In in Hx. by rewrite negb_true_iff in Hs.
  - intros (x & Hx & Hs & ->). exists x. split; [done|].
    apply list_elem_of_In, filter_In. rewrite <- list_elem_of_In.
    by rewrite Hs.
Qed.

Lemma close_gap_columns t p w r :
  name (close_gap t p w r) = name r ∧ description (close_gap t p w r) = description r
  ∧ parent_id (close_gap t p w r) = parent_id r.
Proof. unfold close_gap. by destruct (tree_id r =? t). Qed.

Lemma delete_item_run s i n :
  lookup_item (items (site_db s)) i = Some n →
  delete_item i s = (Ok (204, tt), delete_node s n).
Proof.
  intros Hn. unfold delete_item. apply run_try_Ok_s.
  rewrite (run_bind_Ok_s _ _ s n s) by (apply lift_run; by apply objects_get_found).
  reflexivity.
Qed.

(** X22: deleting an existing item of a well-formed table answers 204 and
    removes exactly the rows of its subtree: afterwards no row has the key
    of the item or of one of its descendants (reading the item gives 404),
    every other row is still found under its key with its name,
    description and parent, and the parent of every remaining row is a
    remaining row.  An item key that no row has is answered 404 "Item not
    found" and nothing changes. *)
Theorem delete_item_removes_subtree (s : Site) (i : Z) :
  (lookup_item (items (site_db s)) i = None →
   delete_item i s = (Raise (HttpError 404 (Message "Item not found")), s))
  ∧ (∀ n, tree_ok (items (site_db s)) → lookup_item (items (site_db s)) i = Some n →
     ∃ s',
       delete_item i s = (Ok (204, tt), s')
       ∧ lift (get_item i) s' = (Raise (HttpError 404 (Message "Item not found")), s')
       ∧ (∀ x, x ∈ items (site_db s) → in_subtree n x = true →
               lookup_item (items (site_db s')) (id x) = None)
       ∧ (∀ x, x ∈ items (site_db s) → in_subtree n x = false →
               ∃ x', lookup_item (items (site_db s')) (id x) = Some x'
                     ∧ name x' = name x ∧ description x' = description x
                     ∧ parent_id x' = parent_id x
                     ∧ ref_ok (items (site_db s')) (parent_id x'))).
Proof.
  split.
  - intros Hi. unfold delete_item.
    rewrite (run_try_Raise_s _ _ s DoesNotExist s
               (raise_s (HttpError 404 (Message "Item not found")))); [done | | done].
    apply run_bind_Raise_s, lift_run. by apply objects_get_missing.
  - intros n Hok Hn. pose proof (lookup_item_Some _ _ _ Hn) as [Hin Hid].
    pose proof (row_bounds _ _ Hok Hin) as Hb.
    exists (delete_node s n). split; [by apply delete_item_run|].
    set (tbl := items (site_db s)) in *.
    assert (∀ x, x ∈ tbl → in_subtree n x = true →
                 lookup_item (items (site_db (delete_node s n))) (id x) = None) as Hgone.
    { intros x Hx Hs. apply lookup_item_None. intros y Hy Hyid. simpl in Hy.
      apply survivors_elem in Hy as (y0 & Hy0 & Hs0 & ->).
      rewrite close_gap_id in Hyid.
      rewrite (keys_inj tbl y0 x (proj1 Hok) Hy0 Hx Hyid) in Hs0. congruence. }
    assert (∀ x, x ∈ tbl → in_subtree n x = false →
                 lookup_item (items (site_db (delete_node s n))) (id x)
                 = Some (close_gap (tree_id n) (rght n) (rght n - lft n + 1) x)) as Hkept.
    { intros x Hx Hs.
      destruct (lookup_item (items (site_db (delete_node s n))) (id x)) as [y|] eqn:E.
      - apply lookup_item_Some in E as [Hy Hyid]. simpl in Hy.
        apply survivors_elem in Hy as (y0 & Hy0 & _ & ->).
        rewrite close_gap_id in Hyid.
        by rewrite (keys_inj tbl y0 x (proj1 Hok) Hy0 Hx Hyid).
      - exfalso. apply lookup_item_None with (r := close_gap (tree_id n) (rght n)
                                                     (rght n - lft n + 1) x) in E.
        + by rewrite close_gap_id in E.
        + simpl. apply survivors_elem. eauto. }
    split; [|split; [exact Hgone|]].
    + apply lift_run. rewrite get_item_run, <- Hid.
      rewrite (Hgone n Hin); [done|]. apply in_subtree_self. lia.
    + intros x Hx Hs. eexists. split; [by apply Hkept|].
      destruct (close_gap_columns (tree_id n) (rght n) (rght n - lft n + 1) x)
        as (-> & -> & ->).
      repeat split. destruct (parent_id x) as [p|] eqn:Hpar; [|done]. unfold ref_ok.
      destruct (parent_row _ _ _ Hok Hx Hpar) as (P & HP & <- & HPx & _).
      rewrite (Hkept P HP); [by eexists|].
      apply not_true_iff_false. intros HsP. apply not_true_iff_false in Hs. apply Hs.
      unfold in_subtree in *. rewrite !andb_true_iff, Z.eqb_eq, !Z.leb_le in *.
      destruct HsP as [[Ht Hlo] Hhi].
      pose proof (row_bounds _ _ Hok HP). pose proof (row_bounds _ _ Hok Hx).
      destruct (rows_laminar _ _ _ Hok Hin HP (eq_sym Ht)) as [?|[?|[?|[?|?]]]];
        unfold encloses in *; [subst P; lia|lia|lia|lia|lia].
Qed.

Lemma delete_item_removes_subtree_witness :
  ∃ s', delete_item 2 (mkSite scenario [] []) = (Ok (204, tt), s')
        ∧ lookup_item (items (site_db s')) 3 = None
        ∧ ∃ w, lookup_item (items (site_db s')) 1 = Some w ∧ name w = Some "Warehouse"%string.
Proof.
  destruct (delete_item_removes_subtree (mkSite scenario [] []) 2) as [_ Hdel].
  destruct (Hdel shelf_a) as (s' & Hrun & _ & Hgone & Hkept);
    [by_computation | reflexivity |].
  exists s'. split; [exact Hrun|]. split.
  - apply (Hgone bin_1); [by_computation | reflexivity].
  - destruct (Hkept warehouse) as (w & Hw & Hname & _); [by_computation | reflexivity |].
    by exists w.
Defined.

(** X23: deleting an item keeps the references of the database sound: if
    every attachment, note and email belonged to an existing row and every
    reference of the history log was null or named an existing row, the
    same holds afterwards; the log keeps its length, and none of its
    entries names the deleted item any more. *)
Theorem delete_item_keeps_references_sound (s s' : Site) (i : Z) (n : Item) :
  lookup_item (items (site_db s)) i = Some n → lft n ≤ rght n →
  delete_item i s = (Ok (204, tt), s') →
  (owned_ok s → owned_ok s')
  ∧ (refs_ok (site_db s) → refs_ok (site_db s'))
  ∧ length (history (site_db s')) = length (history (site_db s))
  ∧ Forall (λ h, h_item h ≠ Some i ∧ h_old_parent h ≠ Some i ∧ h_new_parent h ≠ Some i)
           (history (site_db s')).
Proof.
  intros Hn Hb Hrun. rewrite (delete_item_run _ _ _ Hn) in Hrun. injection Hrun as <-.
  pose proof (lookup_item_Some _ _ _ Hn) as [Hin Hid].
  set (tbl := items (site_db s)) in *.
  assert (∀ j, is_Some (lookup_item tbl j) → doomed tbl n j = false →
               is_Some (lookup_item (items (site_db (delete_node s n))) j)) as Hlive.
  { intros j Hj Hd. apply lookup_item_is_Some in Hj as (r & Hr & Hrid).
    apply lookup_item_is_Some. eexists. split.
    - simpl. apply survivors_elem. exists r. split; [done|]. split; [|done].
      apply not_true_iff_false. intros Hs. apply not_true_iff_false in Hd. apply Hd.
      apply doomed_spec. eauto.
    - by rewrite close_gap_id. }
  assert (∀ ref, ref_ok tbl ref →
                 ref_ok (items (site_db (delete_node s n))) (soften tbl n ref)) as Hsoft.
  { intros [j|] Hj; [|done]. simpl. destruct (doomed tbl n j) eqn:Hd; [done|].
    simpl. by apply Hlive. }
  assert (doomed tbl n i = true) as Hdi.
  { apply doomed_spec. exists n. split; [done|]. split; [|done]. by apply in_subtree_self. }
  assert (∀ ref, soften tbl n ref ≠ Some i) as Hnot.
  { intros [j|]; [|done]. simpl. destruct (doomed tbl n j) eqn:Hd; [done|].
    intros [= ->]. congruence. }
  split; [|split; [|split]].
  - intros (Ha & Hno & He). unfold owned_ok. simpl. repeat split.
    all: apply Forall_forall; intros x Hx.
    all: apply list_elem_of_In, filter_In in Hx as [Hx Hd].
    all: rewrite <- list_elem_of_In in Hx; rewrite negb_true_iff in Hd.
    + rewrite Forall_forall in Ha. by apply Hlive; [apply Ha|].
    + rewrite Forall_forall in Hno. by apply Hlive; [apply Hno|].
    + rewrite Forall_forall in He. by apply Hlive; [apply He|].
  - intros Hrefs. unfold refs_ok in *. simpl.
    change (map ?f ?l) with (f <$> l). rewrite Forall_fmap.
    eapply Forall_impl; [exact Hrefs|]. intros h (H1 & H2 & H3). simpl. auto.
  - simpl. by rewrite length_map.
  - simpl. change (map ?f ?l) with (f <$> l). rewrite Forall_fmap.
    apply Forall_forall. intros h _. simpl. auto.
Qed.

Lemma delete_item_keeps_references_sound_witness :
  refs_ok (site_db (delete_item 3
                      (mkSite (mkDB (items scenario)
                                    [mkHistoryRow 1 (Some 3) (Some 1) (Some 2) 0] [] 1)
                              [mkNote 1 3 "checked" "System"] [])).2).
Proof.
  destruct (delete_item_keeps_references_sound
              (mkSite (mkDB (items scenario)
                            [mkHistoryRow 1 (Some 3) (Some 1) (Some 2) 0] [] 1)
                      [mkNote 1 3 "checked" "System"] [])
              (delete_item 3
                 (mkSite (mkDB (items scenario)
                               [mkHistoryRow 1 (Some 3) (Some 1) (Some 2) 0] [] 1)
                         [mkNote 1 3 "checked" "System"] [])).2
              3 bin_1 eq_refl) as (_ & Hr & _);
    [simpl; lia | reflexivity |].
  apply Hr. repeat constructor; by eexists.
Defined.

(** ** How the tree queries fit together *)

Lemma get_descendants_elem tbl n x :
  x ∈ get_descendants tbl n true
  ↔ x ∈ tbl ∧ tree_id x = tree_id n ∧ lft n ≤ lft x ∧ lft x ≤ rght n.
Proof. unfold get_descendants. rewrite order_by_lft_elem, list_elem_of_filter. tauto. Qed.

Lemma get_ancestors_elem tbl n x :
  x ∈ get_ancestors tbl n true
  ↔ x ∈ tbl ∧ tree_id x = tree_id n ∧ lft x ≤ lft n ∧ rght n ≤ rght x.
Proof. unfold get_ancestors. rewrite order_by_lft_elem, list_elem_of_filter. tauto. Qed.

Lemma get_item_tree_run db n :
  tree_ok (items db) → n ∈ items db →
  get_item_tree (id n) db = (Ok (get_descendants (items db) n true), db).
Proof.
  intros Hok Hn. unfold get_item_tree. apply run_try_Ok.
  rewrite (run_bind_Ok _ _ db n db); [done|].
  apply objects_get_found. by apply lookup_item_elem; [apply Hok|].
Qed.

Lemma get_breadcrumb_run db n :
  tree_ok (items db) → n ∈ items db →
  get_breadcrumb (id n) db = (Ok (get_ancestors (items db) n true), db).
Proof.
  intros Hok Hn. unfold get_breadcrumb. apply run_try_Ok.
  rewrite (run_bind_Ok _ _ db n db); [done|].
  apply objects_get_found. by apply lookup_item_elem; [apply Hok|].
Qed.

(** In a well-formed table, the rows the search adds for a hit are the rows
    of the hit's subtree. *)
Lemma subtree_of_hit tbl hit x :
  tree_ok tbl → hit ∈ tbl → x ∈ tbl →
  (id x = id hit ∨ descendant_filter hit x = true)
  ↔ (tree_id x = tree_id hit ∧ lft hit ≤ lft x ∧ lft x ≤ rght hit).
Proof.
  intros Hok Hhit Hx.
  pose proof (row_bounds _ _ Hok Hhit). pose proof (row_bounds _ _ Hok Hx).
  unfold descendant_filter. rewrite !andb_true_iff, Z.eqb_eq, !Z.ltb_lt. split.
  - intros [Hid|?]; [|lia]. rewrite (keys_inj _ _ _ (proj1 Hok) Hx Hhit Hid). lia.
  - intros (Ht & Hlo & Hhi).
    destruct (rows_laminar _ _ _ Hok Hhit Hx (eq_sym Ht)) as [?|[?|[?|[?|?]]]];
      unfold encloses in *; [left; by subst|lia|lia|right; lia|lia].
Qed.

(** X24: on a well-formed table, the search result is the union of the
    subtree listings of its direct hits: a row is in the result exactly
    when the tree endpoint, asked for some row that a supplied predicate
    matches, lists it. *)
Theorem search_is_union_of_subtrees
    (db db' : DB) (qr_code name description : option string) (res : list Item) :
  tree_ok (items db) →
  search_items qr_code name description db = (Ok res, db') →
  ∀ x, x ∈ res ↔
       ∃ hit l, hit ∈ items db ∧ direct_hit qr_code name description hit = true
                ∧ get_item_tree (id hit) db = (Ok l, db) ∧ x ∈ l.
Proof.
  intros Hok Hrun x. rewrite (search_items_elem _ _ _ _ _ _ Hrun). split.
  - intros (Hx & hit & Hhit & Hd & Hrel).
    exists hit, (get_descendants (items db) hit true).
    split; [done|]. split; [done|]. split; [by apply get_item_tree_run|].
    apply get_descendants_elem. split; [done|]. by apply (subtree_of_hit (items db)).
  - intros (hit & l & Hhit & Hd & Htree & Hx).
    rewrite get_item_tree_run in Htree by done. injection Htree as <-.
    apply get_descendants_elem in Hx as (Hx & Hrange).
    split; [done|]. exists hit. split; [done|]. split; [done|].
    by apply (subtree_of_hit (items db)).
Qed.

Lemma search_is_union_of_subtrees_witness :
  search_items None (Some "shelf"%string) None scenario = (Ok [shelf_a; bin_1], scenario)
  ∧ bin_1 ∈ [shelf_a; bin_1].
Proof.
  split; [reflexivity|].
  apply (search_is_union_of_subtrees scenario scenario None (Some "shelf"%string) None
           [shelf_a; bin_1]); [by_computation | reflexivity |].
  exists shelf_a, [shelf_a; bin_1]. split; [by_computation|].
  split; [reflexivity|]. split; [reflexivity|]. by_computation.
Defined.

(** X25: on a well-formed table the two tree endpoints mirror each other:
    [a] is on the breadcrumb of [b] exactly when [b] is in the tree listed
    for [a]. *)
Theorem breadcrumb_mirrors_tree (db : DB) (a b : Item) :
  tree_ok (items db) → a ∈ items db → b ∈ items db →
  ∃ crumbs tree,
    get_breadcrumb (id b) db = (Ok crumbs, db)
    ∧ get_item_tree (id a) db = (Ok tree, db)
    ∧ (a ∈ crumbs ↔ b ∈ tree).
Proof.
  intros Hok Ha Hb. eexists _, _.
  split; [by apply get_breadcrumb_run|]. split; [by apply get_item_tree_run|].
  rewrite get_ancestors_elem, get_descendants_elem.
  pose proof (row_bounds _ _ Hok Ha). pose proof (row_bounds _ _ Hok Hb).
  split.
  - intros (_ & Ht & Hlo & Hhi). split; [done|]. split; [done|]. lia.
  - intros (_ & Ht & Hlo & Hhi). split; [done|]. split; [done|].
    destruct (rows_laminar _ _ _ Hok Ha Hb (eq_sym Ht)) as [?|[?|[?|[?|?]]]];
      unfold encloses in *; [subst; lia|lia|lia|lia|lia].
Qed.

Lemma breadcrumb_mirrors_tree_witness :
  ∃ crumbs tree,
    get_breadcrumb 3 scenario = (Ok crumbs, scenario)
    ∧ get_item_tree 1 scenario = (Ok tree, scenario)
    ∧ (warehouse ∈ crumbs ↔ bin_1 ∈ tree).
Proof.
  apply (breadcrumb_mirrors_tree scenario warehouse bin_1); by_computation.
Defined.

(** ** Depths along the breadcrumb *)

Lemma root_level tbl c :
  tree_ok tbl → c ∈ tbl → parent_id c = None → level c = 0.
Proof.
  intros (_ & _ & _ & Hp) Hc Hroot. unfold parents_ok in Hp.
  rewrite Forall_forall in Hp. specialize (Hp c Hc). rewrite Hroot in Hp. tauto.
Qed.

Lemma child_level tbl a b :
  tree_ok tbl → a ∈ tbl → b ∈ tbl → parent_id b = Some (id a) → level b = level a + 1.
Proof.
  intros Hok Ha Hb Hpar.
  destruct (parent_row _ _ _ Hok Hb Hpar) as (P & HP & Hid & _ & Hlev & _).
  by rewrite <- (keys_inj tbl P a (proj1 Hok) HP Ha Hid).
Qed.

(** The shape of the ancestors query on a well-formed table. *)
Lemma breadcrumb_chain tbl n :
  tree_ok tbl → n ∈ tbl →
  (∀ x, x ∈ get_ancestors tbl n true → x ∈ tbl)
  ∧ (∃ root, head (get_ancestors tbl n true) = Some root ∧ parent_id root = None)
  ∧ parent_linked (get_ancestors tbl n true)
  ∧ last (get_ancestors tbl n true) = Some n.
Proof.
  intros Hok Hn. pose proof (row_bounds _ _ Hok Hn) as Hbn.
  pose proof (get_ancestors_elem tbl n) as Hmem.
  assert (n ∈ get_ancestors tbl n true) as Hin
    by (apply Hmem; repeat split; [done|done|lia..]).
  assert (StronglySorted (λ a b, lft a < lft b) (get_ancestors tbl n true)) as Hs.
  { apply (strictly_sorted tbl); [done | | | |].
    - intros x Hx. by apply Hmem in Hx as [? _].
    - intros x y Hx Hy. apply Hmem in Hx as (_ & -> & _).
      by apply Hmem in Hy as (_ & -> & _).
    - apply order_by_lft_NoDup, NoDup_filter. by apply tree_ok_NoDup.
    - apply order_by_lft_sorted. }
  split; [|split; [|split]].
  - intros x Hx. by apply Hmem in Hx as [? _].
  - destruct (get_ancestors tbl n true) as [|h t] eqn:Hchain;
      [by apply elem_of_nil in Hin|].
    exists h. split; [done|].
    assert (h ∈ h :: t) as Hh by left. apply Hmem in Hh as (Hh & Hth & Hlo & Hhi).
    destruct (parent_id h) as [p|] eqn:Hpar; [exfalso|done].
    destruct (parent_row _ _ _ Hok Hh Hpar) as (P & HP & _ & HPh & _).
    assert (P ∈ h :: t) as HPin.
    { apply Hmem. unfold encloses in HPh. split; [done|]. lia. }
    apply StronglySorted_inv in Hs as [_ Hall]. rewrite Forall_forall in Hall.
    unfold encloses in HPh.
    apply elem_of_cons in HPin as [->|HPin]; [lia|].
    specialize (Hall P HPin). simpl in Hall. lia.
  - apply sorted_linked; [done|]. intros a b Ha Hb Hlt Hgap.
    apply Hmem in Ha as (Ha & Han). apply Hmem in Hb as (Hb & Hbn').
    apply (adjacent_is_parent tbl n); try done.
    intros x Hx Hxn. apply Hgap, Hmem. by split.
  - apply sorted_last; [done | done |]. intros x Hx. apply Hmem in Hx. lia.
Qed.

Lemma linked_levels tbl l :
  tree_ok tbl → (∀ x, x ∈ l → x ∈ tbl) → parent_linked l →
  ∀ h, head l = Some h →
  ∀ k x, l !! k = Some x → level x = level h + Z.of_nat k.
Proof.
  intros Hok. induction l as [|a l IH]; intros Hsub Hlinked h Hh k x Hk; [done|].
  injection Hh as ->. destruct k as [|k].
  - injection Hk as ->. lia.
  - simpl in Hk. destruct l as [|b l]; [done|]. destruct Hlinked as [Hpar Hlinked].
    rewrite (IH (λ y Hy, Hsub y (list_elem_of_further _ _ _ Hy)) Hlinked b eq_refl k x Hk).
    rewrite (child_level tbl h b Hok); [lia | | | done].
    + apply Hsub. by left.
    + apply Hsub. right. by left.
Qed.

(** X26: on a well-formed table the breadcrumb of a node counts its depth:
    the entry at position k (from 0) is at depth k, and the breadcrumb of a
    node at depth d has d + 1 entries. *)
Theorem breadcrumb_counts_depth (db : DB) (n : Item) :
  tree_ok (items db) → n ∈ items db →
  ∃ crumbs,
    get_breadcrumb (id n) db = (Ok crumbs, db)
    ∧ (∀ k x, crumbs !! k = Some x → level x = Z.of_nat k)
    ∧ Z.of_nat (length crumbs) = level n + 1.
Proof.
  intros Hok Hn. exists (get_ancestors (items db) n true).
  split; [by apply get_breadcrumb_run|].
  destruct (breadcrumb_chain _ _ Hok Hn) as (Hsub & (root & Hhead & Hroot) & Hlinked & Hlast).
  assert (level root = 0) as Hlev.
  { apply (root_level (items db)); [done | | done]. apply Hsub.
    destruct (get_ancestors (items db) n true); [done|]. injection Hhead as ->. by left. }
  assert (∀ k x, get_ancestors (items db) n true !! k = Some x → level x = Z.of_nat k)
    as Hdepth.
  { intros k x Hk. rewrite (linked_levels _ _ Hok Hsub Hlinked root Hhead k x Hk). lia. }
  split; [exact Hdepth|].
  rewrite last_lookup in Hlast. rewrite (Hdepth _ _ Hlast).
  destruct (get_ancestors (items db) n true); [done|]. simpl. lia.
Qed.

Lemma breadcrumb_counts_depth_witness :
  ∃ crumbs, get_breadcrumb 3 scenario = (Ok crumbs, scenario)
            ∧ Z.of_nat (length crumbs) = 3.
Proof.
  destruct (breadcrumb_counts_depth scenario bin_1) as (crumbs & Hrun & _ & Hlen);
    [by_computation | by_computation |].
  by exists crumbs.
Defined.

(** ** The hierarchical listing *)
















(** ** The invariants are kept *)









Section CreationKeeps.
Context `{Validators Item}.


End CreationKeeps.


(** ** Deleting keeps the invariants *)







(** ** Moving keeps the invariants *)


















Section ReparentingKeeps.
Context `{Validators Item}.




End ReparentingKeeps.


